(** * Chainlit session emitter and LangChain agent adapter

    A shallow embedding of [chainlit/emitter.py] and [chainlit/lc/agent.py].

    Python values are a small inductive type, exceptions are an inductive
    type, and code that calls out to the session's capabilities runs in a
    small monad that records every outgoing call and threads Python's
    exceptions. *)

From Stdlib Require Import ZArith String List Bool Lia.
From stdpp Require Import base gmap strings.
Import ListNotations.

Set Warnings "-register-all".

Local Open Scope string_scope.
Local Open Scope list_scope.

(** ** Python values *)

(** The JSON-like values that travel through the emitter: message
    dictionaries, payloads, responses.  [PObj] is an opaque object of a
    class that defines neither [__bool__] nor [__len__]. *)
Inductive pyval : Type :=
| PNone
| PBool (b : bool)
| PInt (z : Z)
| PStr (s : string)
| PDict (items : list (string * pyval))
| PObj (id : nat).

(** Python's truth value testing, as used by [if x:] and [x and y]. *)
Definition truthy (v : pyval) : bool :=
  match v with
  | PNone => false
  | PBool b => b
  | PInt z => negb (z =? 0)%Z
  | PStr s => negb (String.eqb s "")
  | PDict items => match items with [] => false | _ :: _ => true end
  | PObj _ => true
  end.

(** ** Exceptions and results *)

Inductive exn : Type :=
| ValueError (msg : string)
| TimeoutError (msg : string)      (* socketio.exceptions.TimeoutError *)
| IndexError (msg : string)
| KeyError (key : string)
| TypeError (msg : string)
| AttributeError (msg : string)
| OtherError (cls msg : string).   (* any other exception class *)

(** [except TimeoutError] *)
Definition is_TimeoutError (e : exn) : bool :=
  match e with TimeoutError _ => true | _ => false end.

Inductive result (A : Type) : Type :=
| Return (a : A)
| Raise (e : exn).
Arguments Return {A} a.
Arguments Raise {A} e.

Definition is_Return {A} (r : result A) : Prop :=
  match r with Return _ => True | Raise _ => False end.

(** ** The call-recording monad

    A computation reads the history of calls made so far and yields the
    calls it makes itself, in order, with its result.  The history is what
    lets an external collaborator answer differently from one call to the
    next. *)
Section Monad.
Context {E : Type}.

Definition M (A : Type) : Type := list E -> list E * result A.

Definition ret {A} (a : A) : M A := fun _ => ([], Return a).

Definition raise {A} (e : exn) : M A := fun _ => ([], Raise e).

Definition lift {A} (r : result A) : M A := fun _ => ([], r).

Definition bind {A B} (m : M A) (k : A -> M B) : M B :=
  fun h =>
    let (ev1, r1) := m h in
    match r1 with
    | Raise e => (ev1, Raise e)
    | Return a =>
        let (ev2, r2) := k a (h ++ ev1) in
        (ev1 ++ ev2, r2)
    end.

(** Python's [try: body  except C as e: handler  finally: final].  The
    handler runs for a raised exception of class [C]; [final] runs last in
    every case, and an exception it raises replaces the pending outcome. *)
Definition try_except_finally {A}
    (body : M A) (catches : exn -> bool) (handler : exn -> M A)
    (final : M pyval) : M A :=
  fun h =>
    let (ev1, r1) := body h in
    let (ev2, r2) :=
      match r1 with
      | Return a => ([], Return a)
      | Raise e => if catches e then handler e (h ++ ev1) else ([], Raise e)
      end in
    let (ev3, r3) := final (h ++ ev1 ++ ev2) in
    (ev1 ++ ev2 ++ ev3,
     match r3 with
     | Raise e => Raise e
     | Return _ => r2
     end).

Definition events {A} (x : list E * result A) : list E := fst x.
Definition outcome {A} (x : list E * result A) : result A := snd x.
End Monad.
Arguments M : clear implicits.

Declare Scope py_scope.
Delimit Scope py_scope with py.
Notation "x <- m ;; k" := (bind m (fun x => k))
  (at level 100, m at next level, right associativity) : py_scope.
Notation "m ;;; k" := (bind m (fun _ => k))
  (at level 100, right associativity) : py_scope.
Local Open Scope py_scope.

(** ** chainlit/emitter.py *)
Module Emitter.

(** An outgoing call: the capability it goes through and its positional
    arguments. *)
Record call : Type := Call { target : string; args : list pyval }.

(** A callable collaborator.  Its answer may depend on every call the
    emitter made before (the history), and is a value or an exception. *)
Definition fn : Type := list call -> list pyval -> result pyval.

(** Modelled from the spec: chainlit.client.BaseClient is not among the
    sources; it is the persistence client collaborator, of which the
    emitter uses [create_message(record)]. *)
Record BaseClient : Type := { create_message : fn }.

(** What a session stores under a property name: a function ([emit],
    [ask_user]), a persistence client, or any plain value. *)
Inductive sval : Type :=
| Callable (f : fn)
| Client (c : BaseClient)
| Plain (v : pyval).

Definition sval_truthy (c : sval) : bool :=
  match c with
  | Callable _ => true
  | Client _ => true
  | Plain v => truthy v
  end.

(** Modelled from the spec: chainlit.session.Session is not among the
    sources; it is a mapping keyed by string property name that holds the
    capabilities of one connection. *)
Abbreviation Session := (gmap string sval).

(** Modelled from the spec: chainlit.types.AskSpec is not among the
    sources; it describes a pending prompt by a type tag, a timeout and a
    serialization to a wire-transmissible form.  [to_dict] is the value
    that [spec.to_dict()] returns. *)
Record AskSpec : Type := { timeout : Z; type : string; to_dict : pyval }.

(** The instance attribute [session] exists once [__init__] has run. *)
Record ChainlitEmitter : Type := { session : option Session }.

Definition __init__ (s : Session) : ChainlitEmitter := {| session := Some s |}.

Definition missing_property (property_name : string) : exn :=
  ValueError ("Session does not have property '" ++ property_name ++ "'").

Definition _get_session_property
    (self : ChainlitEmitter) (property_name : string) (raise_error : bool)
  : result sval :=
  let absent :=
    if raise_error then Raise (missing_property property_name)
    else Return (Plain PNone) in
  match session self with
  | None => absent                       (* not hasattr(self, "session") *)
  | Some s =>
      match s !! property_name with
      | None => absent                   (* property_name not in self.session *)
      | Some v => Return v               (* self.session[property_name] *)
      end
  end.

Definition emit (self : ChainlitEmitter) : result sval :=
  _get_session_property self "emit" true.

Definition ask_user (self : ChainlitEmitter) : result sval :=
  _get_session_property self "ask_user" true.

Definition client (self : ChainlitEmitter) : result sval :=
  _get_session_property self "client" false.

(** Calling a value [f] read from the session under [name] with the
    positional arguments [a]. *)
Definition invoke (name : string) (f : sval) (a : list pyval) : M call pyval :=
  match f with
  | Callable g => fun h => ([Call name a], g h a)
  | Client _ => raise (TypeError "object is not callable")
  | Plain _ => raise (TypeError "object is not callable")
  end.

(** [self.emit(event, data)]: the property is read first, then called. *)
Definition emit_event (self : ChainlitEmitter) (event : string) (data : pyval)
  : M call pyval :=
  f <- lift (emit self) ;;
  invoke "emit" f [PStr event; data].

Definition send_message (self : ChainlitEmitter) (msg_dict : pyval) :=
  emit_event self "new_message" msg_dict.

Definition update_message (self : ChainlitEmitter) (msg_dict : pyval) :=
  emit_event self "update_message" msg_dict.

Definition delete_message (self : ChainlitEmitter) (msg_dict : pyval) :=
  emit_event self "delete_message" msg_dict.

Definition send_ask_timeout (self : ChainlitEmitter) :=
  emit_event self "ask_timeout" (PDict []).

Definition clear_ask (self : ChainlitEmitter) :=
  emit_event self "clear_ask" (PDict []).

Definition update_token_count (self : ChainlitEmitter) (count : Z) :=
  emit_event self "token_usage" (PInt count).

Definition task_start (self : ChainlitEmitter) :=
  emit_event self "task_start" (PDict []).

Definition task_end (self : ChainlitEmitter) :=
  emit_event self "task_end" (PDict []).

Definition stream_start (self : ChainlitEmitter) (msg_dict : pyval) :=
  emit_event self "stream_start" msg_dict.

Definition send_token (self : ChainlitEmitter) (id : pyval) (token : string) :=
  emit_event self "stream_token" (PDict [("id", id); ("token", PStr token)]).

(** [d[key]] *)
Fixpoint dict_lookup (key : string) (items : list (string * pyval)) : option pyval :=
  match items with
  | [] => None
  | (k, v) :: rest => if String.eqb k key then Some v else dict_lookup key rest
  end.

Definition getitem (v : pyval) (key : string) : result pyval :=
  match v with
  | PDict items =>
      match dict_lookup key items with
      | Some x => Return x
      | None => Raise (KeyError key)
      end
  | PStr _ => Raise (TypeError "string indices must be integers")
  | _ => Raise (TypeError "object is not subscriptable")
  end.

(** [c.create_message] *)
Definition getattr_create_message (c : sval) : result sval :=
  match c with
  | Client cl => Return (Callable (create_message cl))
  | _ => Raise (AttributeError "create_message")
  end.

(** [await self.ask_user({"msg": msg_dict, "spec": spec.to_dict()}, spec.timeout)] *)
Definition ask (self : ChainlitEmitter) (msg_dict : pyval) (spec : AskSpec)
  : M call pyval :=
  f <- lift (ask_user self) ;;
  invoke "ask_user" f
    [PDict [("msg", msg_dict); ("spec", to_dict spec)]; PInt (timeout spec)].

(** The [if self.client and res:] block of [send_ask_user]. *)
Definition store_response (self : ChainlitEmitter) (spec : AskSpec) (res : pyval)
  : M call pyval :=
  c <- lift (client self) ;;
  if sval_truthy c && truthy res then
    if String.eqb (type spec) "text" then
      author <- lift (getitem res "author") ;;
      content <- lift (getitem res "content") ;;
      c' <- lift (client self) ;;
      m <- lift (getattr_create_message c') ;;
      invoke "client.create_message" m
        [PDict [("author", author); ("authorIsUser", PBool true);
                ("content", content)]]
    else if String.eqb (type spec) "file" then
      ret PNone                               (* TODO: upload file to S3 *)
    else ret PNone
  else ret PNone.

Definition send_ask_user
    (self : ChainlitEmitter) (msg_dict : pyval) (spec : AskSpec)
    (raise_on_timeout : bool) : M call pyval :=
  try_except_finally
    (res <- ask self msg_dict spec ;;
     task_end self ;;;
     store_response self spec res ;;;
     clear_ask self ;;;
     ret res)
    is_TimeoutError
    (fun e =>
       send_ask_timeout self ;;;
       if raise_on_timeout then raise e else ret PNone)
    (task_start self).

(** *** get_emitter *)

(** What a frame's local variable can hold: a plain value or an emitter
    instance (an object, hence truthy). *)
Inductive local : Type :=
| LVal (v : pyval)
| LEmitter (e : ChainlitEmitter).

Definition local_truthy (x : local) : bool :=
  match x with
  | LVal v => truthy v
  | LEmitter _ => true
  end.

(** A frame object, [i[0]] of an entry of [inspect.stack()]. *)
Record frame : Type := { f_locals : gmap string local }.

Definition attr : string := "__chainlit_emitter__".

(** [d.get(key)] *)
Definition dict_get (d : gmap string local) (key : string) : local :=
  default (LVal PNone) (d !! key).

(** [[i[0].f_locals.get(attr) for i in inspect.stack()]]; the stack lists
    the current frame first and the outermost caller last. *)
Definition candidates (stack : list frame) : list local :=
  map (fun i => dict_get (f_locals i) attr) stack.

(** The [for candidate in candidates] loop with its [break]. *)
Fixpoint first_truthy (emitter : local) (cs : list local) : local :=
  match cs with
  | [] => emitter
  | candidate :: rest =>
      if local_truthy candidate then candidate
      else first_truthy emitter rest
  end.

Definition get_emitter (stack : list frame) : local :=
  first_truthy (LVal PNone) (candidates stack).

(** The marker a frame holds ([None] when it has none) and whether the
    loop of [get_emitter] stops at it. *)
Definition marker (fr : frame) : local := dict_get (f_locals fr) attr.

Definition carries (fr : frame) : bool := local_truthy (marker fr).


(** *** Observing a run *)

Definition is_emit (name : string) (c : call) : bool :=
  String.eqb (target c) "emit" &&
  match args c with
  | PStr ev :: _ => String.eqb ev name
  | _ => false
  end.

(** How many times the event [name] went through the [emit] capability. *)
Fixpoint emitted (name : string) (evs : list call) : nat :=
  match evs with
  | [] => 0
  | c :: rest => (if is_emit name c then 1 else 0) + emitted name rest
  end.

(** How many calls went to the capability [name]. *)
Fixpoint called (name : string) (evs : list call) : nat :=
  match evs with
  | [] => 0
  | c :: rest => (if String.eqb (target c) name then 1 else 0) + called name rest
  end.

(** The call that [send_ask_user] makes to [ask_user], and the call to
    [emit] behind a signal without payload. *)
Definition prompt (msg_dict : pyval) (spec : AskSpec) : call :=
  Call "ask_user"
    [PDict [("msg", msg_dict); ("spec", to_dict spec)]; PInt (timeout spec)].

Definition signal (event : string) : call := Call "emit" [PStr event; PDict []].

(** *** get_emit_fn *)

(** [emitter.emit] for whatever [get_emitter] returned: the property of an
    emitter instance; a plain value has no such attribute. *)
Definition getattr_emit (emitter : local) : result sval :=
  match emitter with
  | LEmitter e => emit e
  | LVal _ => Raise (AttributeError "emit")
  end.

Definition get_emit_fn (stack : list frame) : result sval :=
  let emitter := get_emitter stack in
  if local_truthy emitter then getattr_emit emitter
  else Return (Plain PNone).

End Emitter.

(** ** chainlit/lc/agent.py *)
Module Agent.

(** The callback handler classes imported from chainlit.lc.callbacks; the
    adapter only constructs them. *)
Inductive handler : Type :=
| ChainlitCallbackHandler
| AsyncChainlitCallbackHandler.

(** One invocation of the agent: the entry point used, the positional
    argument and the [callbacks] keyword argument. *)
Record invocation : Type :=
  Invoke { entry_point : string; input : pyval; callbacks : list handler }.

Definition entry : Type :=
  list invocation -> pyval -> list handler -> result pyval.

(** The agent object.  [input_keys] and [output_keys] are [None] when the
    object has no such attribute ([hasattr] is false). *)
Record agent : Type := {
  input_keys : option (list string);
  output_keys : option (list string);
  acall : entry;
  __call__ : entry
}.

(** [keys[0]] *)
Definition first (keys : list string) : result string :=
  match keys with
  | k :: _ => Return k
  | [] => Raise (IndexError "list index out of range")
  end.

(** Modelled from the spec: chainlit.sync.make_async is not part of the
    sources at hand; it runs the agent's synchronous entry point on a
    non-blocking execution context, so awaiting the wrapped call gives the
    outcome of the call itself. *)
Definition make_async (f : entry) : entry := f.

Definition invoke (name : string) (f : entry) (x : pyval) (cbs : list handler)
  : M invocation pyval :=
  fun h => ([Invoke name x cbs], f h x cbs).

Definition run_langchain_agent (a : agent) (input_str : string) (use_async : bool)
  : M invocation (pyval * pyval) :=
  raw_res <-
    match input_keys a with
    | Some keys =>
        input_key <- lift (first keys) ;;
        if use_async then
          invoke "acall" (acall a)
            (PDict [(input_key, PStr input_str)]) [AsyncChainlitCallbackHandler]
        else
          invoke "__call__" (make_async (__call__ a))
            (PDict [(input_key, PStr input_str)]) [ChainlitCallbackHandler]
    | None =>
        if use_async then
          invoke "acall" (acall a) (PStr input_str) [AsyncChainlitCallbackHandler]
        else
          invoke "__call__" (make_async (__call__ a))
            (PStr input_str) [ChainlitCallbackHandler]
    end ;;
  output_key <-
    match output_keys a with
    | Some keys => k <- lift (first keys) ;; ret (PStr k)
    | None => ret PNone
    end ;;
  ret (raw_res, output_key).

(** *** Observing a run *)

(** The entry point used, its name in the log and the handler passed. *)
Definition entry_of (a : agent) (use_async : bool) : entry :=
  if use_async then acall a else __call__ a.

Definition entry_name (use_async : bool) : string :=
  if use_async then "acall" else "__call__".

Definition handler_of (use_async : bool) : handler :=
  if use_async then AsyncChainlitCallbackHandler else ChainlitCallbackHandler.

End Agent.

(** ** auth0/management/stats.py and auth0/management/user_blocks.py *)
Module Auth0.

(** One HTTP request handed to the REST client: the verb, the URL and the
    [params] argument ([None] when it is left out). *)
Record request : Type :=
  Request { verb : string; url : string; params : option (list (string * pyval)) }.

Definition endpoint : Type :=
  list request -> string -> option (list (string * pyval)) -> result pyval.

(** Modelled from the spec: auth0.rest.RestClient is not among the sources;
    it is the REST client collaborator with [get(url, params)] and
    [delete(url, params)], whose HTTP, authentication and retry behaviour is
    opaque. *)
Record RestClient : Type := { get : endpoint; delete : endpoint }.

Definition call_get (c : RestClient) (u : string)
    (p : option (list (string * pyval))) : M request pyval :=
  fun h => ([Request "GET" u p], get c h u p).

Definition call_delete (c : RestClient) (u : string)
    (p : option (list (string * pyval))) : M request pyval :=
  fun h => ([Request "DELETE" u p], delete c h u p).


Module Stats.

(** The attributes that [__init__] sets; [client] is the [RestClient] it
    builds from the token and the options. *)
Record Stats : Type := { domain : string; protocol : string; client : RestClient }.

Definition _url (self : Stats) (action : string) : string :=
  protocol self ++ "://" ++ domain self ++ "/api/v2/stats/" ++ action.



End Stats.

Module UserBlocks.

Record UserBlocks : Type := { domain : string; protocol : string; client : RestClient }.

(** [id] is [None] or a string, as the docstrings have it. *)
Definition _url (self : UserBlocks) (id : option string) : string :=
  let url : string :=
    (protocol self ++ "://" ++ domain self ++ "/api/v2/user-blocks")%string in
  match id with
  | Some i => (url ++ "/" ++ i)%string
  | None => url
  end.

Definition get_by_identifier (self : UserBlocks) (identifier : pyval)
  : M request pyval :=
  let params := [("identifier", identifier)] in
  call_get (client self) (_url self None) (Some params).

Definition unblock_by_identifier (self : UserBlocks) (identifier : pyval)
  : M request pyval :=
  let params := [("identifier", identifier)] in
  call_delete (client self) (_url self None) (Some params).

Definition get (self : UserBlocks) (id : option string) : M request pyval :=
  call_get (client self) (_url self id) None.

Definition unblock (self : UserBlocks) (id : option string) : M request pyval :=
  call_delete (client self) (_url self id) None.

End UserBlocks.

End Auth0.

(** ** Sample sessions, stacks and agents *)
Module Samples.
Import Emitter.

Definition ok_fn : fn := fun _ _ => Return PNone.

Definition answer : pyval :=
  PDict [("author", PStr "User"); ("content", PStr "hello")].

Definition answering : fn := fun _ _ => Return answer.

Definition timing_out : fn := fun _ _ => Raise (TimeoutError "timeout").

Definition failing_client : BaseClient :=
  {| create_message := fun _ _ => Raise (OtherError "ConnectionError" "down") |}.

Definition working_client : BaseClient :=
  {| create_message := ok_fn |}.

Definition text_spec : AskSpec :=
  {| timeout := 60; type := "text";
     to_dict := PDict [("timeout", PInt 60); ("type", PStr "text")] |}.

Definition msg : pyval := PDict [("content", PStr "What is your name?")].

Definition session_answering : gmap string sval :=
  <["emit" := Callable ok_fn]> (<["ask_user" := Callable answering]> ∅).

Definition session_timing_out : gmap string sval :=
  <["emit" := Callable ok_fn]> (<["ask_user" := Callable timing_out]> ∅).

Definition session_failing_client : gmap string sval :=
  <["client" := Client failing_client]> session_answering.

Definition session_working_client : gmap string sval :=
  <["client" := Client working_client]> session_answering.


Definition inner_emitter : ChainlitEmitter := __init__ session_answering.

Definition outer_emitter : ChainlitEmitter := __init__ session_timing_out.

Definition frame_plain : frame :=
  {| f_locals := {[ "x" := LVal (PInt 1) ]} |}.

Definition frame_inner : frame :=
  {| f_locals := {[ attr := LEmitter inner_emitter ]} |}.

Definition frame_outer : frame :=
  {| f_locals := {[ attr := LEmitter outer_emitter ]} |}.

Definition frame_none : frame :=
  {| f_locals := {[ attr := LVal PNone ]} |}.

(** Two nested requests: the current frame first, the outermost last. *)
Definition nested_stack : list frame :=
  [frame_plain; frame_inner; frame_plain; frame_outer].

Definition shadowed_stack : list frame :=
  [frame_plain; frame_none; frame_outer; frame_plain].

End Samples.

Module AgentSamples.
Import Agent.

Definition echo : entry := fun _ x _ => Return (PDict [("result", x)]).

Definition qa_chain : agent :=
  {| input_keys := Some ["query"]; output_keys := Some ["result"; "source"];
     acall := echo; __call__ := echo |}.

Definition bare_agent : agent :=
  {| input_keys := None; output_keys := None; acall := echo; __call__ := echo |}.

Definition keyless_agent : agent :=
  {| input_keys := Some []; output_keys := Some []; acall := echo; __call__ := echo |}.

Definition no_output_agent : agent :=
  {| input_keys := Some ["query"]; output_keys := Some [];
     acall := echo; __call__ := echo |}.

End AgentSamples.

Module MoreSamples.
Import Emitter Samples.

Definition file_spec : AskSpec :=
  {| timeout := 90; type := "file";
     to_dict := PDict [("timeout", PInt 90); ("type", PStr "file")] |}.

Definition anonymous_answer : pyval := PDict [("content", PStr "hello")].

Definition slow_client : BaseClient :=
  {| create_message := fun _ _ => Raise (TimeoutError "storage timeout") |}.

Definition session_slow_client : gmap string sval :=
  <["client" := Client slow_client]> session_answering.

Definition session_anonymous : gmap string sval :=
  <["client" := Client working_client]>
    (<["emit" := Callable ok_fn]>
       (<["ask_user" := Callable (fun _ _ => Return anonymous_answer)]> ∅)).

Definition session_emit_only : gmap string sval :=
  <["emit" := Callable ok_fn]> ∅.

(** An [emit] that fails on [task_start] only. *)
Definition no_resume : fn :=
  fun _ a =>
    match a with
    | PStr "task_start" :: _ => Raise (OtherError "ConnectionError" "closed")
    | _ => Return PNone
    end.

Definition session_no_resume : gmap string sval :=
  <["emit" := Callable no_resume]> (<["ask_user" := Callable answering]> ∅).

(** The prompt times out on a session that has no [emit]. *)
Definition session_timeout_no_emit : gmap string sval :=
  <["ask_user" := Callable timing_out]> ∅.

(** The prompt times out and [emit] fails on [task_start]. *)
Definition session_timeout_no_resume : gmap string sval :=
  <["emit" := Callable no_resume]> (<["ask_user" := Callable timing_out]> ∅).

Definition frame_number : frame :=
  {| f_locals := {[ attr := LVal (PInt 0) ]} |}.

Definition frame_emit_only : frame :=
  {| f_locals := {[ attr := LEmitter (__init__ session_emit_only) ]} |}.

Definition frame_empty_session : frame :=
  {| f_locals := {[ attr := LEmitter (__init__ ∅) ]} |}.

Definition recording : Auth0.RestClient :=
  {| Auth0.get := fun _ u _ => Return (PStr u);
     Auth0.delete := fun _ _ _ => Raise (OtherError "Auth0Error" "404") |}.

Definition tenant_blocks : Auth0.UserBlocks.UserBlocks :=
  {| Auth0.UserBlocks.domain := "tenant.auth0.com";
     Auth0.UserBlocks.protocol := "https";
     Auth0.UserBlocks.client := recording |}.

Definition tenant_stats : Auth0.Stats.Stats :=
  {| Auth0.Stats.domain := "tenant.auth0.com";
     Auth0.Stats.protocol := "https";
     Auth0.Stats.client := recording |}.

End MoreSamples.

(** ** Properties of the session emitter *)
Section EmitterProperties.
Import Emitter Samples.

Lemma emitted_app name (a b : list call) :
  emitted name (a ++ b) = emitted name a + emitted name b.
Proof. induction a as [|c a IH]; simpl; [reflexivity|]. rewrite IH. lia. Qed.

(** With a callable [emit] in the session, emitting an event is one call
    to it. *)
Lemma emit_event_callable (s : gmap string sval) (f : fn) ev d h :
  s !! "emit" = Some (Callable f) ->
  emit_event (__init__ s) ev d h = ([Call "emit" [PStr ev; d]], f h [PStr ev; d]).
Proof.
  intros Hemit. unfold emit_event, emit, _get_session_property, bind, lift. simpl.
  rewrite Hemit. simpl. rewrite app_nil_r. destruct (f _ _); reflexivity.
Qed.

(** Without one, emitting raises before any call is made, and the
    exception is not a timeout. *)
Lemma emit_event_unavailable (s : gmap string sval) :
  (forall f, s !! "emit" <> Some (Callable f)) ->
  exists e, is_TimeoutError e = false /\
    forall ev d h, emit_event (__init__ s) ev d h = ([], Raise e).
Proof.
  intros Hno. unfold emit_event, emit, _get_session_property, bind, lift. simpl.
  destruct (s !! "emit") as [[f|c|v]|] eqn:Hemit; simpl.
  - exfalso. exact (Hno f eq_refl).
  - eexists. split; [|intros; reflexivity]. reflexivity.
  - eexists. split; [|intros; reflexivity]. reflexivity.
  - eexists. split; [|intros; reflexivity]. reflexivity.
Qed.

(** Asking the user and storing the response go through other
    capabilities than [emit]. *)
Lemma ask_events self msg_dict spec h name :
  emitted name (events (ask self msg_dict spec h)) = 0.
Proof.
  unfold ask, ask_user, _get_session_property, bind, lift, events.
  destruct (session self) as [s|]; simpl; [|reflexivity].
  destruct (s !! "ask_user") as [[g|c|v]|]; reflexivity.
Qed.

Lemma store_response_events self spec res h name :
  emitted name (events (store_response self spec res h)) = 0.
Proof.
  unfold store_response, client, _get_session_property, bind, lift, ret, events.
  destruct (session self) as [s|]; simpl; [|reflexivity].
  destruct (s !! "client") as [c|]; simpl; [|reflexivity].
  destruct (sval_truthy c && truthy res); simpl; [|reflexivity].
  destruct (type spec =? "text")%string; simpl.
  - destruct (getitem res "author"); simpl; [|reflexivity].
    destruct (getitem res "content"); simpl; [|reflexivity].
    destruct c as [g|c|v]; reflexivity.
  - destruct (type spec =? "file")%string; reflexivity.
Qed.

(** One step of a symbolic run of [send_ask_user]: [rw] rewrites the
    next [emit_event], the other steps split on an outcome. *)
Ltac run_step rw :=
  first
    [ rw
    | match goal with
      | |- context [ask ?s ?m ?sp ?h] =>
          let H := fresh "Hask" in
          let E := fresh "Eask" in
          pose proof (ask_events s m sp h) as E;
          destruct (ask s m sp h) as [? [?|?]] eqn:H
      | |- context [store_response ?s ?sp ?r ?h] =>
          let H := fresh "Hstore" in
          let E := fresh "Estore" in
          pose proof (store_response_events s sp r h) as E;
          destruct (store_response s sp r h) as [? [?|?]] eqn:H
      | |- context [is_TimeoutError ?e] =>
          let H := fresh "Htimeout" in
          destruct (is_TimeoutError e) eqn:H
      | |- context [match ?f ?h (PStr ?ev :: ?d) with _ => _ end] =>
          let H := fresh "Hemitted" in
          destruct (f h (PStr ev :: d)) eqn:H
      | |- context [if ?b then _ else _] => is_var b; destruct b
      end ];
  cbn [fst snd events outcome] in *.

Ltac unfold_run :=
  unfold send_ask_user, try_except_finally, task_end, task_start, clear_ask,
    send_ask_timeout, bind, ret, raise.

Ltac count_events :=
  cbn [fst snd events outcome] in *;
  repeat rewrite emitted_app;
  repeat match goal with
    | E : forall name : string, emitted name ?l = 0 |- _ => rewrite !E
    end;
  try reflexivity.

Ltac absurd_case :=
  try discriminate; try congruence;
  try (exfalso; cbn [is_Return] in *; tauto);
  try match goal with
    | Hok : forall h a, is_Return (?f h a), Hbad : ?f ?h ?a = Raise _ |- _ =>
        exfalso; specialize (Hok h a); rewrite Hbad in Hok; exact Hok
    | Hok : forall h, is_Return (outcome (store_response ?s ?sp ?r h)),
      Hbad : store_response ?s ?sp ?r ?h = (_, Raise _) |- _ =>
        exfalso; specialize (Hok h); rewrite Hbad in Hok; exact Hok
    end.

(** C1 (as amended). For every call to [send_ask_user] on a session with
    a callable [emit], the resumption event [task_start] is emitted
    exactly once, as the last event of the call, whatever the outcome
    (response, timeout, or an error such as a failing [create_message]).
    The suspension event [task_end] is emitted exactly once when
    [ask_user] returns a response, and not at all when [ask_user] raises
    (a timeout included). *)
Theorem task_signalling (s : gmap string sval) (f : fn) msg_dict spec rot h :
  s !! "emit" = Some (Callable f) ->
  let self := __init__ s in
  let run := send_ask_user self msg_dict spec rot h in
  (exists before,
      events run = before ++ [Call "emit" [PStr "task_start"; PDict []]] /\
      emitted "task_start" before = 0) /\
  emitted "task_start" (events run) = 1 /\
  (is_Return (outcome (ask self msg_dict spec h)) ->
     emitted "task_end" (events run) = 1) /\
  (~ is_Return (outcome (ask self msg_dict spec h)) ->
     emitted "task_end" (events run) = 0).
Proof.
  intros Hemit self run. subst self run. unfold_run.
  repeat run_step ltac:(rewrite (emit_event_callable _ _ _ _ _ Hemit)).
  all: split; [ eexists; split; [ rewrite app_assoc; reflexivity | count_events ] | ].
  all: repeat split; intros; count_events; absurd_case.
Qed.

(** C2 (as amended). On a session with a callable [emit], when [ask_user]
    signals a timeout, exactly one [ask_timeout] notification is emitted;
    when the [emit] calls succeed, the call returns [None] if
    [raise_on_timeout] is false and raises that same timeout error if it is
    true. *)
Theorem timeout_notified (s : gmap string sval) (f : fn) msg_dict spec rot h e :
  s !! "emit" = Some (Callable f) ->
  outcome (ask (__init__ s) msg_dict spec h) = Raise e ->
  is_TimeoutError e = true ->
  let run := send_ask_user (__init__ s) msg_dict spec rot h in
  emitted "ask_timeout" (events run) = 1 /\
  ((forall h' a, is_Return (f h' a)) ->
     outcome run = if rot then Raise e else Return PNone).
Proof.
  intros Hemit Hout Htime run. subst run. revert Hout. unfold_run.
  repeat run_step ltac:(rewrite (emit_event_callable _ _ _ _ _ Hemit)).
  all: intros Hout; try discriminate Hout.
  all: injection Hout as ->; try congruence.
  all: split; [ count_events | intros Hok; absurd_case ].
Qed.

(** C3. When [ask_user] returns a response and nothing else fails (the
    [emit] calls and the storing of the response succeed), the call
    returns exactly that response and emits [clear_ask] exactly once. *)
Theorem response_returned (s : gmap string sval) (f : fn) msg_dict spec rot h res :
  s !! "emit" = Some (Callable f) ->
  (forall h' a, is_Return (f h' a)) ->
  outcome (ask (__init__ s) msg_dict spec h) = Return res ->
  (forall h', is_Return (outcome (store_response (__init__ s) spec res h'))) ->
  let run := send_ask_user (__init__ s) msg_dict spec rot h in
  outcome run = Return res /\ emitted "clear_ask" (events run) = 1.
Proof.
  intros Hemit Hok Hout Hstored run. subst run. revert Hout. unfold_run.
  repeat run_step ltac:(rewrite (emit_event_callable _ _ _ _ _ Hemit)).
  all: intros Hout; try discriminate Hout.
  all: injection Hout as ->; absurd_case.
  all: split; [ reflexivity | count_events ].
Qed.

(** The session holds a callable [emit], or emitting is impossible. *)
Lemma callable_emit_or_not (s : gmap string sval) :
  (exists f, s !! "emit" = Some (Callable f)) \/
  (forall f, s !! "emit" <> Some (Callable f)).
Proof. destruct (s !! "emit") as [[f|c|v]|]; [left; eauto| right ..]; congruence. Qed.

Ltac timeout_was_sent :=
  match goal with
  | Hnone : emitted "ask_timeout" _ = 0 |- _ =>
      exfalso; repeat rewrite emitted_app in Hnone;
      repeat match goal with
        | E : forall name : string, emitted name _ = 0 |- _ =>
            rewrite (E "ask_timeout") in Hnone
        end;
      discriminate Hnone
  end.

Lemma clear_ask_at_most_once (s : gmap string sval) msg_dict spec rot h :
  emitted "clear_ask" (events (send_ask_user (__init__ s) msg_dict spec rot h)) <= 1.
Proof.
  destruct (callable_emit_or_not s) as [[f Hemit] | Hno].
  - unfold_run.
    repeat run_step ltac:(rewrite (emit_event_callable _ _ _ _ _ Hemit)).
    all: count_events; simpl; lia.
  - destruct (emit_event_unavailable s Hno) as (e0 & Hnt & Hrw). unfold_run.
    repeat run_step ltac:(rewrite Hrw).
    all: count_events; simpl; lia.
Qed.

Lemma clear_ask_before_return (s : gmap string sval) msg_dict spec rot h v :
  let run := send_ask_user (__init__ s) msg_dict spec rot h in
  outcome run = Return v ->
  emitted "ask_timeout" (events run) = 0 ->
  exists before,
    events run = before ++ [signal "clear_ask"; signal "task_start"] /\
    emitted "clear_ask" before = 0.
Proof.
  intros run. subst run.
  destruct (callable_emit_or_not s) as [[f Hemit] | Hno].
  - unfold_run.
    repeat run_step ltac:(rewrite (emit_event_callable _ _ _ _ _ Hemit)).
    all: intros Hret Hnone; try discriminate Hret; try timeout_was_sent.
    all: match goal with
         | |- context [?l ++ [?te] ++ ?l0 ++ _] => exists (l ++ [te] ++ l0)
         end.
    all: split; [ rewrite <- !app_assoc; reflexivity | count_events ].
  - destruct (emit_event_unavailable s Hno) as (e0 & Hnt & Hrw). unfold_run.
    repeat run_step ltac:(rewrite Hrw).
    all: intros Hret Hnone; discriminate Hret.
Qed.

Lemma clear_ask_skipped_when_ask_raises (s : gmap string sval) msg_dict spec rot h e :
  outcome (ask (__init__ s) msg_dict spec h) = Raise e ->
  emitted "clear_ask" (events (send_ask_user (__init__ s) msg_dict spec rot h)) = 0.
Proof.
  destruct (callable_emit_or_not s) as [[f Hemit] | Hno].
  - unfold_run.
    repeat run_step ltac:(rewrite (emit_event_callable _ _ _ _ _ Hemit)).
    all: intros Hout; try discriminate Hout; count_events.
  - destruct (emit_event_unavailable s Hno) as (e0 & Hnt & Hrw). unfold_run.
    repeat run_step ltac:(rewrite Hrw).
    all: intros Hout; try discriminate Hout; count_events.
Qed.

(** The history at which the storing step runs: after the prompt and the
    [task_end] signal. *)
Lemma clear_ask_skipped_when_storing_fails
    (s : gmap string sval) msg_dict spec rot h res e :
  let asked := events (ask (__init__ s) msg_dict spec h) in
  outcome (ask (__init__ s) msg_dict spec h) = Return res ->
  outcome (store_response (__init__ s) spec res
             ((h ++ asked) ++ [signal "task_end"])) = Raise e ->
  emitted "clear_ask" (events (send_ask_user (__init__ s) msg_dict spec rot h)) = 0.
Proof.
  intros asked. subst asked. unfold signal.
  destruct (callable_emit_or_not s) as [[f Hemit] | Hno].
  - unfold_run.
    run_step fail; intros Hout; [injection Hout as -> | discriminate Hout].
    repeat run_step ltac:(rewrite (emit_event_callable _ _ _ _ _ Hemit)).
    all: intros Hfail; try discriminate Hfail; count_events.
  - destruct (emit_event_unavailable s Hno) as (e0 & Hnt & Hrw). unfold_run.
    run_step fail; intros Hout; [injection Hout as -> | discriminate Hout].
    repeat run_step ltac:(rewrite Hrw).
    all: intros Hfail; count_events.
Qed.

Lemma early_error_propagates
    (s : gmap string sval) (f : fn) msg_dict spec rot h e :
  let asked := events (ask (__init__ s) msg_dict spec h) in
  s !! "emit" = Some (Callable f) ->
  (forall h' a, is_Return (f h' a)) ->
  is_TimeoutError e = false ->
  outcome (ask (__init__ s) msg_dict spec h) = Raise e \/
  (exists res,
     outcome (ask (__init__ s) msg_dict spec h) = Return res /\
     outcome (store_response (__init__ s) spec res
                ((h ++ asked) ++ [signal "task_end"])) = Raise e) ->
  outcome (send_ask_user (__init__ s) msg_dict spec rot h) = Raise e.
Proof.
  intros asked Hemit Hok Hnt. subst asked. unfold signal.
  intros [Hout | (res & Hout & Hfail)]; revert Hout.
  - unfold_run.
    run_step fail; intros Hout; [discriminate Hout | injection Hout as ->].
    rewrite Hnt.
    repeat run_step ltac:(rewrite (emit_event_callable _ _ _ _ _ Hemit)).
    all: absurd_case. all: reflexivity.
  - revert Hfail. unfold_run.
    run_step fail; intros Hfail Hout; [injection Hout as -> | discriminate Hout].
    revert Hfail.
    rewrite (emit_event_callable _ _ _ _ _ Hemit).
    destruct (f (h ++ l) _) eqn:Hend; [|absurd_case].
    run_step fail; intros Hfail; [discriminate Hfail | injection Hfail as ->].
    rewrite Hnt.
    repeat run_step ltac:(rewrite (emit_event_callable _ _ _ _ _ Hemit)).
    all: absurd_case. all: reflexivity.
Qed.

(** C4 (as amended). [send_ask_user] emits [clear_ask] at most once.
    Every normal return on which no [ask_timeout] was sent has exactly one
    [clear_ask] before it, emitted right before the final [task_start].
    When [ask_user] raises, the prompt timeout included, [clear_ask] is not
    emitted: the timeout outcome skips the clearing.  A failure while
    storing the response skips it as well.  On a session with a callable
    [emit] whose calls succeed, an error that is not a timeout, raised by
    [ask_user] or while storing the response, propagates to the caller.
    The storing step runs after the prompt and the [task_end] signal. *)
Theorem clear_ask_emission (s : gmap string sval) msg_dict spec rot h :
  let self := __init__ s in
  let run := send_ask_user self msg_dict spec rot h in
  let stored res :=
    store_response self spec res
      ((h ++ events (ask self msg_dict spec h)) ++ [signal "task_end"]) in
  emitted "clear_ask" (events run) <= 1 /\
  (forall v, outcome run = Return v ->
     emitted "ask_timeout" (events run) = 0 ->
     emitted "clear_ask" (events run) = 1 /\
     exists before,
       events run = before ++ [signal "clear_ask"; signal "task_start"]) /\
  (forall e, outcome (ask self msg_dict spec h) = Raise e ->
     emitted "clear_ask" (events run) = 0) /\
  (forall res e, outcome (ask self msg_dict spec h) = Return res ->
     outcome (stored res) = Raise e ->
     emitted "clear_ask" (events run) = 0) /\
  (forall f e,
     s !! "emit" = Some (Callable f) ->
     (forall h' a, is_Return (f h' a)) ->
     is_TimeoutError e = false ->
     outcome (ask self msg_dict spec h) = Raise e \/
     (exists res,
        outcome (ask self msg_dict spec h) = Return res /\
        outcome (stored res) = Raise e) ->
     outcome run = Raise e).
Proof.
  intros self run stored. subst self run stored. cbv beta.
  split; [apply clear_ask_at_most_once|].
  split.
  { intros v Hret Hnone.
    destruct (clear_ask_before_return s msg_dict spec rot h v Hret Hnone)
      as (before & Hev & Hbefore).
    split; [|exists before; exact Hev].
    rewrite Hev, emitted_app, Hbefore. reflexivity. }
  split; [intros e; apply clear_ask_skipped_when_ask_raises|].
  split; [intros res e; apply clear_ask_skipped_when_storing_fails|].
  intros f e. apply early_error_propagates.
Qed.

(** *** Concrete runs *)

(** C1, counterexample: a prompt that times out.  [task_start] is emitted
    once but [task_end] is never emitted. *)
Lemma task_end_skipped_on_timeout :
  let run := send_ask_user (__init__ session_timing_out) msg text_spec false [] in
  outcome (ask (__init__ session_timing_out) msg text_spec [])
    = Raise (TimeoutError "timeout") /\
  outcome run = Return PNone /\
  emitted "task_end" (events run) = 0 /\
  emitted "task_start" (events run) = 1.
Proof. vm_compute. repeat split; reflexivity. Qed.

Lemma task_signalling_witness :
  let run := send_ask_user (__init__ session_failing_client) msg text_spec false [] in
  session_failing_client !! "emit" = Some (Callable ok_fn) /\
  emitted "task_start" (events run) = 1 /\
  emitted "task_end" (events run) = 1.
Proof.
  pose proof (task_signalling session_failing_client ok_fn msg text_spec false []
                eq_refl) as (_ & Hstart & Hend & _).
  split; [reflexivity|]. split; [exact Hstart|]. apply Hend. exact I.
Defined.

Lemma timeout_notified_witness :
  let run rot := send_ask_user (__init__ session_timing_out) msg text_spec rot [] in
  emitted "ask_timeout" (events (run false)) = 1 /\
  outcome (run false) = Return PNone /\
  outcome (run true) = Raise (TimeoutError "timeout").
Proof.
  intros run.
  pose proof (fun rot => timeout_notified session_timing_out ok_fn msg text_spec rot []
                (TimeoutError "timeout") eq_refl eq_refl eq_refl) as H.
  split; [exact (proj1 (H false))|].
  split; [apply (proj2 (H false)) | apply (proj2 (H true))]; intros; exact I.
Defined.

Lemma response_returned_witness :
  let run := send_ask_user (__init__ session_working_client) msg text_spec false [] in
  outcome run = Return answer /\ emitted "clear_ask" (events run) = 1.
Proof.
  apply (response_returned session_working_client ok_fn msg text_spec false [] answer).
  - reflexivity.
  - intros; exact I.
  - reflexivity.
  - intros; exact I.
Defined.

(** C4, counterexample: the user answers, but the persistence client's
    [create_message] raises.  No timeout is involved, yet [clear_ask] is
    never emitted: the error leaves the call. *)
Lemma clear_ask_skipped_on_persistence_failure :
  let run := send_ask_user (__init__ session_failing_client) msg text_spec false [] in
  outcome (ask (__init__ session_failing_client) msg text_spec []) = Return answer /\
  outcome run = Raise (OtherError "ConnectionError" "down") /\
  emitted "ask_timeout" (events run) = 0 /\
  emitted "clear_ask" (events run) = 0.
Proof. vm_compute. repeat split; reflexivity. Qed.

Lemma clear_ask_emission_witness :
  let run s := send_ask_user (__init__ s) msg text_spec false [] in
  emitted "clear_ask" (events (run session_working_client)) = 1 /\
  emitted "clear_ask" (events (run session_timing_out)) = 0 /\
  emitted "clear_ask" (events (run session_failing_client)) = 0 /\
  outcome (run session_failing_client) = Raise (OtherError "ConnectionError" "down").
Proof.
  intros run.
  pose proof (fun s => clear_ask_emission s msg text_spec false []) as H.
  split; [|split; [|split]].
  - apply (proj1 (proj2 (H session_working_client)) answer); reflexivity.
  - apply (proj1 (proj2 (proj2 (H session_timing_out))) (TimeoutError "timeout")).
    reflexivity.
  - apply (proj1 (proj2 (proj2 (proj2 (H session_failing_client)))) answer
             (OtherError "ConnectionError" "down")); reflexivity.
  - apply (proj2 (proj2 (proj2 (proj2 (H session_failing_client)))) ok_fn).
    + reflexivity.
    + intros; exact I.
    + reflexivity.
    + right. exists answer. split; reflexivity.
Defined.

(** *** Further properties of [send_ask_user] *)

Import MoreSamples.

(** C2, counterexample: the prompt times out on a session without [emit].
    No [ask_timeout] is emitted and the call raises the missing-capability
    error, whatever [raise_on_timeout] is.  With an [emit] that fails on
    [task_start] and [raise_on_timeout] set, the error that leaves the call
    is that failure, not the timeout. *)
Lemma timeout_without_working_emit :
  let run rot :=
    send_ask_user (__init__ session_timeout_no_emit) msg text_spec rot [] in
  outcome (ask (__init__ session_timeout_no_emit) msg text_spec [])
    = Raise (TimeoutError "timeout") /\
  emitted "ask_timeout" (events (run false)) = 0 /\
  outcome (run false) = Raise (ValueError "Session does not have property 'emit'") /\
  outcome (run true) = Raise (ValueError "Session does not have property 'emit'") /\
  outcome (ask (__init__ session_timeout_no_resume) msg text_spec [])
    = Raise (TimeoutError "timeout") /\
  outcome (send_ask_user (__init__ session_timeout_no_resume) msg text_spec true [])
    = Raise (OtherError "ConnectionError" "closed").
Proof. vm_compute. repeat split; reflexivity. Qed.

Lemma called_app name (a b : list call) :
  called name (a ++ b) = called name a + called name b.
Proof. induction a as [|c a IH]; simpl; [reflexivity|]. rewrite IH. lia. Qed.

Lemma ask_callable (s : gmap string sval) (g : fn) msg_dict spec h :
  s !! "ask_user" = Some (Callable g) ->
  ask (__init__ s) msg_dict spec h =
    ([prompt msg_dict spec], g h (args (prompt msg_dict spec))).
Proof.
  intros Hask. unfold ask, ask_user, _get_session_property, bind, lift. simpl.
  rewrite Hask. simpl. rewrite app_nil_r. destruct (g _ _); reflexivity.
Qed.

Lemma ask_unavailable (s : gmap string sval) msg_dict spec h :
  (forall g, s !! "ask_user" <> Some (Callable g)) ->
  exists e, is_TimeoutError e = false /\
    ask (__init__ s) msg_dict spec h = ([], Raise e).
Proof.
  intros Hno. unfold ask, ask_user, _get_session_property, bind, lift. simpl.
  destruct (s !! "ask_user") as [[g|c|v]|] eqn:Hask; simpl.
  - exfalso. exact (Hno g eq_refl).
  - eexists. split; [|reflexivity]. reflexivity.
  - eexists. split; [|reflexivity]. reflexivity.
  - eexists. split; [|reflexivity]. reflexivity.
Qed.

Lemma store_response_called self spec res h name :
  name <> "client.create_message" ->
  called name (events (store_response self spec res h)) = 0.
Proof.
  intros Hname. apply String.eqb_neq in Hname. rewrite String.eqb_sym in Hname.
  unfold store_response, client, _get_session_property, bind, lift, ret, events.
  destruct (session self) as [s|]; simpl; [|reflexivity].
  destruct (s !! "client") as [c|]; simpl; [|reflexivity].
  destruct (sval_truthy c && truthy res); simpl; [|reflexivity].
  destruct (type spec =? "text")%string; simpl.
  - destruct (getitem res "author"); simpl; [|reflexivity].
    destruct (getitem res "content"); simpl; [|reflexivity].
    destruct c as [g|c|v]; try reflexivity.
    cbn -[String.eqb]. rewrite Hname. reflexivity.
  - destruct (type spec =? "file")%string; reflexivity.
Qed.

Lemma ask_called self msg_dict spec h name :
  name <> "ask_user" ->
  called name (events (ask self msg_dict spec h)) = 0.
Proof.
  intros Hname. apply String.eqb_neq in Hname. rewrite String.eqb_sym in Hname.
  unfold ask, ask_user, _get_session_property, bind, lift, events.
  destruct (session self) as [s|]; simpl; [|reflexivity].
  destruct (s !! "ask_user") as [[g|c|v]|]; try reflexivity.
  cbn -[String.eqb]. rewrite Hname. reflexivity.
Qed.

(** Case split on whether the session holds a callable [emit]. *)
Lemma emit_cases (s : gmap string sval) :
  (exists f, s !! "emit" = Some (Callable f)) \/
  (forall f, s !! "emit" <> Some (Callable f)).
Proof. destruct (s !! "emit") as [[f|c|v]|]; [left; eauto| right ..]; congruence. Qed.

(** The counting facts about the calls of a storing step met in a run. *)
Ltac store_facts name :=
  repeat match goal with
    | Hst : store_response ?s ?sp ?r ?h = (?l, _) |- _ =>
        lazymatch goal with
        | Hc : called name l = 0 |- _ => fail
        | _ =>
            let X := fresh "Cstore" in
            assert (X : called name l = 0)
              by (pose proof (store_response_called s sp r h name) as X;
                  rewrite Hst in X; apply X; discriminate)
        end
    end.

Ltac count_calls :=
  cbn [fst snd events outcome] in *;
  repeat (progress (rewrite ?called_app; simpl called));
  repeat match goal with
    | E : called _ ?l = _ |- _ => rewrite !E
    end;
  try reflexivity.

(** X1. On a session with a callable [ask_user], every call to
    [send_ask_user] starts by calling it, once, with the message and the
    serialized spec in one mapping and the spec's timeout; it is not called
    again, whatever happens next. *)
Theorem prompt_sent_once (s : gmap string sval) (g : fn) msg_dict spec rot h :
  s !! "ask_user" = Some (Callable g) ->
  let run := send_ask_user (__init__ s) msg_dict spec rot h in
  exists rest,
    events run = prompt msg_dict spec :: rest /\ called "ask_user" rest = 0.
Proof.
  intros Hask run. subst run.
  destruct (emit_cases s) as [[f Hemit] | Hno].
  - unfold_run. rewrite (ask_callable _ _ _ _ _ Hask).
    destruct (g h _) eqn:Hg.
    all: repeat run_step ltac:(rewrite (emit_event_callable _ _ _ _ _ Hemit)).
    all: store_facts "ask_user".
    all: eexists; split; [reflexivity|]; count_calls.
  - destruct (emit_event_unavailable s Hno) as (e0 & Hnt & Hrw).
    unfold_run. rewrite (ask_callable _ _ _ _ _ Hask).
    destruct (g h _) eqn:Hg.
    all: repeat run_step ltac:(rewrite Hrw).
    all: store_facts "ask_user".
    all: eexists; split; [reflexivity|]; count_calls.
Qed.

Lemma prompt_sent_once_witness :
  exists rest,
    events (send_ask_user (__init__ session_timing_out) msg text_spec true []) =
      prompt msg text_spec :: rest /\ called "ask_user" rest = 0.
Proof.
  exact (prompt_sent_once session_timing_out timing_out msg text_spec true [] eq_refl).
Defined.

(** X2. When the user answers and nothing fails, the calls of
    [send_ask_user] come in this order: the prompt, [task_end], the storing
    of the response, [clear_ask], [task_start]. *)
Theorem answered_prompt_trace
    (s : gmap string sval) (f : fn) msg_dict spec rot h res :
  s !! "emit" = Some (Callable f) ->
  (forall h' a, is_Return (f h' a)) ->
  outcome (ask (__init__ s) msg_dict spec h) = Return res ->
  (forall h', is_Return (outcome (store_response (__init__ s) spec res h'))) ->
  let asked := events (ask (__init__ s) msg_dict spec h) in
  let stored :=
    events (store_response (__init__ s) spec res
              ((h ++ asked) ++ [signal "task_end"])) in
  events (send_ask_user (__init__ s) msg_dict spec rot h) =
    asked ++ signal "task_end" :: stored ++ [signal "clear_ask"; signal "task_start"].
Proof.
  intros Hemit Hok Hout Hstored asked stored. subst asked stored.
  revert Hout. unfold_run. unfold signal.
  run_step fail; intros Hout; [injection Hout as -> | discriminate Hout].
  repeat run_step ltac:(rewrite (emit_event_callable _ _ _ _ _ Hemit)).
  all: absurd_case.
  all: rewrite <- ?app_assoc; reflexivity.
Qed.

Lemma answered_prompt_trace_witness :
  events (send_ask_user (__init__ session_working_client) msg text_spec false []) =
    [prompt msg text_spec; signal "task_end";
     Call "client.create_message"
       [PDict [("author", PStr "User"); ("authorIsUser", PBool true);
               ("content", PStr "hello")]];
     signal "clear_ask"; signal "task_start"].
Proof.
  rewrite (answered_prompt_trace session_working_client ok_fn msg text_spec false []
             answer eq_refl (fun _ _ => I) eq_refl (fun _ => I)).
  reflexivity.
Defined.

(** What the storing step calls: nothing, or [create_message] once, and
    then only for a text prompt, a truthy response and a client object in
    the session. *)
Lemma store_response_count (s : gmap string sval) spec res h :
  let n := called "client.create_message"
             (events (store_response (__init__ s) spec res h)) in
  n = 0 \/
  (n = 1 /\ type spec = "text" /\ truthy res = true /\
   exists c, s !! "client" = Some (Client c)).
Proof.
  unfold store_response, client, _get_session_property, bind, lift, ret, events.
  simpl. destruct (s !! "client") as [c|]; simpl; [|left; reflexivity].
  destruct (sval_truthy c) eqn:Hc; simpl; [|left; reflexivity].
  destruct (truthy res) eqn:Hres; simpl; [|left; reflexivity].
  destruct (type spec =? "text")%string eqn:Htype; simpl.
  - apply String.eqb_eq in Htype.
    destruct (getitem res "author"); simpl; [|left; reflexivity].
    destruct (getitem res "content"); simpl; [|left; reflexivity].
    destruct c as [g|c|v]; try (left; reflexivity).
    right. split; [reflexivity|]. split; [exact Htype|]. split; [reflexivity|].
    exists c. reflexivity.
  - destruct (type spec =? "file")%string; left; reflexivity.
Qed.

Ltac ask_facts name :=
  repeat match goal with
    | Hk : ask ?s ?m ?sp ?h = (?l, _) |- _ =>
        lazymatch goal with
        | Hc : called name l = 0 |- _ => fail
        | _ =>
            let X := fresh "Cask" in
            assert (X : called name l = 0)
              by (pose proof (ask_called s m sp h name) as X;
                  rewrite Hk in X; apply X; discriminate)
        end
    end.

(** X3. [create_message] is called at most once per prompt, and only when
    the spec's type is "text", the session holds a client object and
    [ask_user] returned a truthy response; a response to any other kind of
    prompt (a file prompt included) is never stored. *)
Theorem persistence_only_for_text (s : gmap string sval) msg_dict spec rot h :
  let self := __init__ s in
  let run := send_ask_user self msg_dict spec rot h in
  called "client.create_message" (events run) <= 1 /\
  (called "client.create_message" (events run) = 1 ->
     type spec = "text" /\
     (exists c, s !! "client" = Some (Client c)) /\
     exists res, outcome (ask self msg_dict spec h) = Return res /\
                 truthy res = true).
Proof.
  intros self run. subst self run.
  assert (Hgen : forall evs r,
    send_ask_user (__init__ s) msg_dict spec rot h = (evs, r) ->
    called "client.create_message" evs = 0 \/
    (called "client.create_message" evs = 1 /\ type spec = "text" /\
     (exists c, s !! "client" = Some (Client c)) /\
     exists res, outcome (ask (__init__ s) msg_dict spec h) = Return res /\
                 truthy res = true)).
  { destruct (emit_cases s) as [[f Hemit] | Hno].
    - unfold_run.
      repeat run_step ltac:(rewrite (emit_event_callable _ _ _ _ _ Hemit)).
      all: intros evs r [= <- <-]; ask_facts "client.create_message".
      all: try (left; count_calls; fail).
      all: match goal with
           | Hst : store_response _ _ ?a ?hh = (?l, _) |- _ =>
               pose proof (store_response_count s spec a hh) as Hcount;
               rewrite Hst in Hcount; cbn [events fst] in Hcount;
               destruct Hcount as [Hz | (Hone & Htype & Hres & Hc)]
           end.
      all: try (left; count_calls; fail).
      all: right; split; [count_calls|].
      all: split; [assumption|]. all: split; [exact Hc|].
      all: eexists; split; [reflexivity | assumption].
    - destruct (emit_event_unavailable s Hno) as (e0 & Hnt & Hrw). unfold_run.
      repeat run_step ltac:(rewrite Hrw).
      all: intros evs r [= <- <-]; ask_facts "client.create_message".
      all: left; count_calls. }
  destruct (send_ask_user (__init__ s) msg_dict spec rot h) as [evs r] eqn:Hrun.
  destruct (Hgen evs r eq_refl) as [Hz | (Hone & Hrest)]; cbn [events fst].
  - rewrite Hz. split; [lia | discriminate].
  - rewrite Hone. split; [lia | intros _; exact Hrest].
Qed.

Lemma getitem_not_timeout (v : pyval) (key : string) (e : exn) :
  getitem v key = Raise e -> is_TimeoutError e = false.
Proof.
  unfold getitem. destruct v; try (intros [= <-]; reflexivity).
  destruct (dict_lookup key items); [discriminate | intros [= <-]; reflexivity].
Qed.

(** The storing step on a text prompt with a client and a truthy response:
    the record is built from the response's author and content. *)
Lemma store_response_text (s : gmap string sval) (c : BaseClient) spec res h :
  s !! "client" = Some (Client c) ->
  type spec = "text" ->
  truthy res = true ->
  store_response (__init__ s) spec res h =
    match getitem res "author" with
    | Raise e => ([], Raise e)
    | Return author =>
        match getitem res "content" with
        | Raise e => ([], Raise e)
        | Return content =>
            let record := [PDict [("author", author); ("authorIsUser", PBool true);
                                  ("content", content)]] in
            ([Call "client.create_message" record], create_message c h record)
        end
    end.
Proof.
  intros Hclient Htype Hres.
  unfold store_response, client, _get_session_property, bind, lift, ret. simpl.
  rewrite Hclient, Htype, Hres. simpl.
  destruct (getitem res "author"); [|reflexivity].
  destruct (getitem res "content"); [|reflexivity].
  simpl. rewrite !app_nil_r. destruct (create_message c h _); reflexivity.
Qed.

(** X4. On a session with a callable [emit] whose calls succeed: for a
    text prompt, with a client in the session and a truthy response that
    has an author and a content, [create_message] is called exactly once,
    and the record handed to it holds exactly that author and content and
    marks the author as the user. *)
Theorem response_record_stored
    (s : gmap string sval) (f : fn) (c : BaseClient)
    msg_dict spec rot h res author content :
  s !! "emit" = Some (Callable f) ->
  (forall h' a, is_Return (f h' a)) ->
  s !! "client" = Some (Client c) ->
  type spec = "text" ->
  outcome (ask (__init__ s) msg_dict spec h) = Return res ->
  truthy res = true ->
  getitem res "author" = Return author ->
  getitem res "content" = Return content ->
  let run := send_ask_user (__init__ s) msg_dict spec rot h in
  In (Call "client.create_message"
        [PDict [("author", author); ("authorIsUser", PBool true);
                ("content", content)]]) (events run) /\
  called "client.create_message" (events run) = 1.
Proof.
  intros Hemit Hok Hclient Htype Hout Hres Hauthor Hcontent run. subst run.
  revert Hout. unfold_run.
  run_step fail; intros Hout; [injection Hout as -> | discriminate Hout].
  ask_facts "client.create_message".
  rewrite (emit_event_callable _ _ _ _ _ Hemit).
  destruct (f (h ++ l) _) eqn:Hend; [|absurd_case].
  rewrite (store_response_text s c spec res _ Hclient Htype Hres).
  rewrite Hauthor, Hcontent. cbv zeta.
  destruct (create_message c _ _) eqn:Hcm.
  all: repeat run_step ltac:(rewrite (emit_event_callable _ _ _ _ _ Hemit)).
  all: split; [ rewrite !in_app_iff; simpl; tauto | count_calls ].
Qed.

Lemma response_record_stored_witness :
  In (Call "client.create_message"
        [PDict [("author", PStr "User"); ("authorIsUser", PBool true);
                ("content", PStr "hello")]])
     (events (send_ask_user (__init__ session_failing_client) msg text_spec false [])).
Proof.
  exact (proj1 (response_record_stored session_failing_client ok_fn failing_client
                  msg text_spec false [] answer (PStr "User") (PStr "hello")
                  eq_refl (fun _ _ => I) eq_refl eq_refl eq_refl eq_refl eq_refl
                  eq_refl)).
Defined.

(** X5. On a session with a callable [emit] whose calls succeed: for a
    text prompt with a client, a truthy response that lacks its author or
    its content makes the call raise the lookup error: [create_message] is
    not called, [clear_ask] is not emitted, and [task_start] still is. *)
Theorem malformed_response_raises
    (s : gmap string sval) (f : fn) (c : BaseClient)
    msg_dict spec rot h res e :
  s !! "emit" = Some (Callable f) ->
  (forall h' a, is_Return (f h' a)) ->
  s !! "client" = Some (Client c) ->
  type spec = "text" ->
  outcome (ask (__init__ s) msg_dict spec h) = Return res ->
  truthy res = true ->
  getitem res "author" = Raise e \/
  (is_Return (getitem res "author") /\ getitem res "content" = Raise e) ->
  let run := send_ask_user (__init__ s) msg_dict spec rot h in
  outcome run = Raise e /\
  called "client.create_message" (events run) = 0 /\
  emitted "clear_ask" (events run) = 0 /\
  emitted "task_start" (events run) = 1.
Proof.
  intros Hemit Hok Hclient Htype Hout Hres Hkey run. subst run.
  assert (Hstore : forall h', store_response (__init__ s) spec res h' = ([], Raise e)).
  { intros h'. rewrite (store_response_text s c spec res _ Hclient Htype Hres).
    destruct Hkey as [-> | [Hauthor ->]]; [reflexivity|].
    destruct (getitem res "author"); [reflexivity | contradiction]. }
  assert (Hnt : is_TimeoutError e = false).
  { destruct Hkey as [Hk | [_ Hk]]; exact (getitem_not_timeout _ _ _ Hk). }
  revert Hout. unfold_run.
  run_step fail; intros Hout; [injection Hout as -> | discriminate Hout].
  ask_facts "client.create_message".
  rewrite (emit_event_callable _ _ _ _ _ Hemit).
  destruct (f (h ++ l) _) eqn:Hend; [|absurd_case].
  rewrite Hstore. cbn [fst snd]. rewrite Hnt.
  repeat run_step ltac:(rewrite (emit_event_callable _ _ _ _ _ Hemit)).
  all: absurd_case.
  all: split; [reflexivity|]. all: split; [count_calls|].
  all: split; count_events.
Qed.

Lemma malformed_response_raises_witness :
  let run := send_ask_user (__init__ session_anonymous) msg text_spec false [] in
  outcome run = Raise (KeyError "author") /\
  called "client.create_message" (events run) = 0 /\
  emitted "clear_ask" (events run) = 0 /\
  emitted "task_start" (events run) = 1.
Proof.
  apply (malformed_response_raises session_anonymous ok_fn working_client
           msg text_spec false [] anonymous_answer (KeyError "author")).
  - reflexivity.
  - intros; exact I.
  - reflexivity.
  - reflexivity.
  - reflexivity.
  - reflexivity.
  - left. reflexivity.
Defined.

(** X6. On a session with a callable [emit] whose calls succeed: a timeout
    error raised while storing the response is handled like a prompt
    timeout: [ask_timeout] is emitted, [clear_ask] is not, and unless
    [raise_on_timeout] is set the call returns [None], so the response that
    the user gave is not returned. *)
Theorem storage_timeout_drops_response
    (s : gmap string sval) (f : fn) msg_dict spec rot h res e :
  s !! "emit" = Some (Callable f) ->
  (forall h' a, is_Return (f h' a)) ->
  outcome (ask (__init__ s) msg_dict spec h) = Return res ->
  (forall h', outcome (store_response (__init__ s) spec res h') = Raise e) ->
  is_TimeoutError e = true ->
  let run := send_ask_user (__init__ s) msg_dict spec rot h in
  outcome run = (if rot then Raise e else Return PNone) /\
  emitted "ask_timeout" (events run) = 1 /\
  emitted "clear_ask" (events run) = 0.
Proof.
  intros Hemit Hok Hout Hfail Htime run. subst run.
  revert Hout. unfold_run.
  run_step fail; intros Hout; [injection Hout as -> | discriminate Hout].
  rewrite (emit_event_callable _ _ _ _ _ Hemit).
  destruct (f (h ++ l) _) eqn:Hend; [|absurd_case].
  run_step fail.
  all: match goal with
       | Hst : store_response _ _ _ ?hh = _ |- _ =>
           pose proof (Hfail hh) as Hf; rewrite Hst in Hf; cbn [outcome snd] in Hf
       end.
  1: discriminate Hf.
  injection Hf as ->. rewrite Htime.
  repeat run_step ltac:(rewrite (emit_event_callable _ _ _ _ _ Hemit)).
  all: absurd_case.
  all: split; [reflexivity|]; split; count_events.
Qed.

Lemma storage_timeout_drops_response_witness :
  let run := send_ask_user (__init__ session_slow_client) msg text_spec false [] in
  outcome (ask (__init__ session_slow_client) msg text_spec []) = Return answer /\
  outcome run = Return PNone /\
  emitted "ask_timeout" (events run) = 1 /\
  emitted "clear_ask" (events run) = 0.
Proof.
  split; [reflexivity|].
  apply (storage_timeout_drops_response session_slow_client ok_fn msg text_spec
           false [] answer (TimeoutError "storage timeout")).
  - reflexivity.
  - intros; exact I.
  - reflexivity.
  - intros; reflexivity.
  - reflexivity.
Defined.

(** X7. [raise_on_timeout] changes nothing unless a timeout is notified:
    when the call without it emits no [ask_timeout], the call with it makes
    the same calls and has the same outcome. *)
Theorem raise_on_timeout_needs_timeout (s : gmap string sval) msg_dict spec h :
  emitted "ask_timeout"
    (events (send_ask_user (__init__ s) msg_dict spec false h)) = 0 ->
  send_ask_user (__init__ s) msg_dict spec true h =
  send_ask_user (__init__ s) msg_dict spec false h.
Proof.
  destruct (emit_cases s) as [[f Hemit] | Hno].
  - unfold_run.
    repeat run_step ltac:(rewrite (emit_event_callable _ _ _ _ _ Hemit)).
    all: intros Hnone; try reflexivity.
    all: exfalso; repeat rewrite emitted_app in Hnone;
      rewrite ?Eask, ?Estore in Hnone; discriminate Hnone.
  - destruct (emit_event_unavailable s Hno) as (e0 & Hnt & Hrw). unfold_run.
    repeat run_step ltac:(rewrite Hrw).
    all: intros Hnone; reflexivity.
Qed.

Lemma raise_on_timeout_needs_timeout_witness :
  send_ask_user (__init__ session_failing_client) msg text_spec true [] =
  send_ask_user (__init__ session_failing_client) msg text_spec false [].
Proof.
  apply (raise_on_timeout_needs_timeout session_failing_client msg text_spec []).
  reflexivity.
Defined.

(** X8. On a session that has [emit] but no [ask_user], the call sends no
    prompt and no timeout notification: it emits [task_start] alone and
    raises the missing-capability error for 'ask_user'. *)
Theorem prompt_needs_ask_user (s : gmap string sval) (f : fn) msg_dict spec rot h :
  s !! "emit" = Some (Callable f) ->
  s !! "ask_user" = None ->
  let run := send_ask_user (__init__ s) msg_dict spec rot h in
  events run = [signal "task_start"] /\
  (is_Return (f h (args (signal "task_start"))) ->
     outcome run = Raise (ValueError "Session does not have property 'ask_user'")).
Proof.
  intros Hemit Hask run. subst run. unfold_run.
  assert (Hrun : ask (__init__ s) msg_dict spec h =
                   ([], Raise (ValueError "Session does not have property 'ask_user'"))).
  { unfold ask, ask_user, _get_session_property, bind, lift. simpl.
    rewrite Hask. reflexivity. }
  rewrite Hrun. cbn [is_TimeoutError].
  rewrite (emit_event_callable _ _ _ _ _ Hemit).
  rewrite !app_nil_r. unfold signal. cbn [args events outcome fst snd app].
  split; [reflexivity|].
  destruct (f h _); [reflexivity | contradiction].
Qed.

Lemma prompt_needs_ask_user_witness :
  send_ask_user (__init__ session_emit_only) msg text_spec false [] =
    ([signal "task_start"],
     Raise (ValueError "Session does not have property 'ask_user'")).
Proof.
  pose proof (prompt_needs_ask_user session_emit_only ok_fn msg text_spec false []
                eq_refl eq_refl) as [Hev Hout].
  apply injective_projections; [exact Hev | exact (Hout I)].
Defined.

(** X9. An error raised by the final [task_start] replaces the outcome of
    the exchange: the response of the user, or the error that was on its
    way, is lost. *)
Theorem failed_resumption_replaces_outcome
    (s : gmap string sval) (f : fn) msg_dict spec rot h e :
  s !! "emit" = Some (Callable f) ->
  (forall h' d, f h' [PStr "task_start"; d] = Raise e) ->
  outcome (send_ask_user (__init__ s) msg_dict spec rot h) = Raise e.
Proof.
  intros Hemit Hfail. unfold send_ask_user, try_except_finally.
  destruct (bind _ _ h) as [ev1 r1].
  destruct (match r1 with
            | Return a => ([], Return a)
            | Raise e0 => _
            end) as [ev2 r2].
  unfold task_start. rewrite (emit_event_callable _ _ _ _ _ Hemit).
  rewrite Hfail. reflexivity.
Qed.

Lemma failed_resumption_replaces_outcome_witness :
  outcome (ask (__init__ session_no_resume) msg text_spec []) = Return answer /\
  outcome (send_ask_user (__init__ session_no_resume) msg text_spec false []) =
    Raise (OtherError "ConnectionError" "closed").
Proof.
  split; [reflexivity|].
  apply (failed_resumption_replaces_outcome session_no_resume no_resume).
  - reflexivity.
  - intros; reflexivity.
Defined.

(** X10. On a session without [emit] the call still sends the prompt (when
    [ask_user] can be called), but whatever [ask_user] answers, the call
    raises the missing-capability error for 'emit': nothing is emitted and
    the response or the timeout is lost.  An emitter whose [session]
    attribute was never set behaves like one on an empty session. *)
Theorem missing_emit_masks_outcome (s : gmap string sval) msg_dict spec rot h :
  s !! "emit" = None ->
  let run := send_ask_user (__init__ s) msg_dict spec rot h in
  outcome run = Raise (ValueError "Session does not have property 'emit'") /\
  events run = events (ask (__init__ s) msg_dict spec h) /\
  (forall name, emitted name (events run) = 0) /\
  send_ask_user {| session := None |} msg_dict spec rot h =
    send_ask_user (__init__ ∅) msg_dict spec rot h.
Proof.
  intros Hemit run. subst run.
  assert (Hrw : forall ev d h', emit_event (__init__ s) ev d h' =
                  ([], Raise (ValueError "Session does not have property 'emit'"))).
  { intros. unfold emit_event, emit, _get_session_property, bind, lift. simpl.
    rewrite Hemit. reflexivity. }
  cut (outcome (send_ask_user (__init__ s) msg_dict spec rot h) =
         Raise (ValueError "Session does not have property 'emit'") /\
       events (send_ask_user (__init__ s) msg_dict spec rot h) =
         events (ask (__init__ s) msg_dict spec h) /\
       (forall name,
          emitted name (events (send_ask_user (__init__ s) msg_dict spec rot h)) = 0)).
  { intros (H1 & H2 & H3). repeat split; assumption. }
  unfold_run.
  repeat run_step ltac:(rewrite Hrw; cbn [is_TimeoutError]).
  all: repeat split; intros; rewrite ?app_nil_r; count_events.
Qed.

Lemma missing_emit_masks_outcome_witness :
  let s : gmap string sval := <["ask_user" := Callable answering]> ∅ in
  send_ask_user (__init__ s) msg text_spec false [] =
    ([prompt msg text_spec],
     Raise (ValueError "Session does not have property 'emit'")).
Proof.
  intros s.
  pose proof (missing_emit_masks_outcome s msg text_spec false [] eq_refl)
    as (Hout & Hev & _).
  apply injective_projections; [exact Hev | exact Hout].
Defined.



End EmitterProperties.

(** ** Properties of the current-emitter resolution and of the accessors *)
Section ResolutionProperties.
Import Emitter Samples.

Lemma first_truthy_skip (d : local) (nearer rest : list local) :
  (forall c, In c nearer -> local_truthy c = false) ->
  first_truthy d (nearer ++ rest) = first_truthy d rest.
Proof.
  induction nearer as [|c nearer IH]; intros Hfalsy; simpl; [reflexivity|].
  rewrite (Hfalsy c) by (left; reflexivity).
  apply IH. intros c' Hin. apply Hfalsy. right. exact Hin.
Qed.

Lemma get_emitter_first_carrier (nearer : list frame) (fr : frame) (outer : list frame) :
  (forall x, In x nearer -> carries x = false) ->
  carries fr = true ->
  get_emitter (nearer ++ fr :: outer) = marker fr.
Proof.
  intros Hnearer Hfr. unfold get_emitter, candidates.
  rewrite map_app. rewrite first_truthy_skip.
  - simpl. unfold carries, marker in Hfr. rewrite Hfr. reflexivity.
  - intros c Hin. apply in_map_iff in Hin as (x & <- & Hx). exact (Hnearer x Hx).
Qed.

Lemma get_emitter_no_carrier (stack : list frame) :
  (forall x, In x stack -> carries x = false) ->
  get_emitter stack = LVal PNone.
Proof.
  intros Hnone. unfold get_emitter, candidates.
  rewrite <- (app_nil_r (map _ stack)). rewrite first_truthy_skip; [reflexivity|].
  intros c Hin. apply in_map_iff in Hin as (x & <- & Hx). exact (Hnone x Hx).
Qed.

Lemma first_truthy_result (cs : list local) :
  first_truthy (LVal PNone) cs = LVal PNone \/
  local_truthy (first_truthy (LVal PNone) cs) = true.
Proof.
  induction cs as [|c cs IH]; simpl; [left; reflexivity|].
  destruct (local_truthy c) eqn:Hc; [right; exact Hc | exact IH].
Qed.



(** C10. A frame that binds [__chainlit_emitter__] to a falsy value is
    passed over like a frame that does not bind it: when every nearer frame
    binds it to a falsy value (or not at all) and a frame further out binds
    it to a truthy emitter, that emitter is returned.  The result of
    [get_emitter] is [None] or truthy, never a falsy marker other than
    [None]. *)
Theorem falsy_markers_skipped (stack : list frame) :
  (forall nearer fr outer e,
      stack = nearer ++ fr :: outer ->
      (forall x, In x nearer ->
         f_locals x !! attr = None \/
         exists v, f_locals x !! attr = Some v /\ local_truthy v = false) ->
      f_locals fr !! attr = Some e ->
      local_truthy e = true ->
      get_emitter stack = e) /\
  (get_emitter stack = LVal PNone \/ local_truthy (get_emitter stack) = true).
Proof.
  split.
  - intros nearer fr outer e -> Hnearer Hfr He.
    rewrite get_emitter_first_carrier.
    + unfold marker, dict_get. rewrite Hfr. reflexivity.
    + intros x Hx. unfold carries, marker, dict_get.
      destruct (Hnearer x Hx) as [Hunbound | (v & Hv & Hfalsy)].
      * rewrite Hunbound. reflexivity.
      * rewrite Hv. exact Hfalsy.
    + unfold carries, marker, dict_get. rewrite Hfr. exact He.
  - apply first_truthy_result.
Qed.

Lemma falsy_markers_skipped_witness :
  get_emitter shadowed_stack = LEmitter outer_emitter.
Proof.
  apply (proj1 (falsy_markers_skipped shadowed_stack)
           [frame_plain; frame_none] frame_outer [frame_plain]).
  - reflexivity.
  - intros x [<- | [<- | []]].
    + left. reflexivity.
    + right. exists (LVal PNone). split; reflexivity.
  - reflexivity.
  - reflexivity.
Defined.

(** C7. The accessors [emit] and [ask_user] return the capability stored
    under their name when the session has it and raise the
    missing-capability error when it has not; [client] returns the stored
    capability when present and [None], not an error, when absent. *)
Theorem property_accessors (s : gmap string sval) :
  let self := __init__ s in
  (forall c, s !! "emit" = Some c -> emit self = Return c) /\
  (s !! "emit" = None ->
     emit self = Raise (ValueError "Session does not have property 'emit'")) /\
  (forall c, s !! "ask_user" = Some c -> ask_user self = Return c) /\
  (s !! "ask_user" = None ->
     ask_user self = Raise (ValueError "Session does not have property 'ask_user'")) /\
  (forall c, s !! "client" = Some c -> client self = Return c) /\
  (s !! "client" = None -> client self = Return (Plain PNone)).
Proof.
  unfold emit, ask_user, client, _get_session_property, __init__; simpl.
  repeat split; intros; match goal with H : _ !! _ = _ |- _ => rewrite H end;
    reflexivity.
Qed.

Lemma property_accessors_witness :
  emit (__init__ session_working_client) = Return (Callable ok_fn) /\
  client (__init__ session_working_client) = Return (Client working_client) /\
  ask_user (__init__ ∅) = Raise (ValueError "Session does not have property 'ask_user'") /\
  client (__init__ session_answering) = Return (Plain PNone).
Proof.
  pose proof (property_accessors session_working_client) as (He & _ & _ & _ & Hc & _).
  pose proof (property_accessors ∅) as (_ & _ & _ & Ha & _ & _).
  pose proof (property_accessors session_answering) as (_ & _ & _ & _ & _ & Hn).
  split; [apply He; reflexivity|]. split; [apply Hc; reflexivity|].
  split; [apply Ha; reflexivity | apply Hn; reflexivity].
Defined.

(** C6. On a session without the [emit] capability every notification
    method raises the missing-capability error at once: nothing is
    called, nothing is retried. *)
Theorem notifications_require_emit
    (s : gmap string sval) (msg_dict id : pyval) (count : Z) (token : string)
    (h : list call) :
  s !! "emit" = None ->
  let self := __init__ s in
  let refused : list call * result pyval :=
    ([], Raise (ValueError "Session does not have property 'emit'")) in
  send_message self msg_dict h = refused /\
  update_message self msg_dict h = refused /\
  delete_message self msg_dict h = refused /\
  send_ask_timeout self h = refused /\
  clear_ask self h = refused /\
  update_token_count self count h = refused /\
  task_start self h = refused /\
  task_end self h = refused /\
  stream_start self msg_dict h = refused /\
  send_token self id token h = refused.
Proof.
  intros Hemit self refused.
  assert (H : forall ev d, emit_event self ev d h = refused).
  { intros ev d. subst self.
    unfold emit_event, emit, _get_session_property, bind, lift; simpl.
    rewrite Hemit. reflexivity. }
  repeat split; apply H.
Qed.

Lemma notifications_require_emit_witness :
  send_message (__init__ ∅) msg [] =
    ([], Raise (ValueError "Session does not have property 'emit'")) /\
  send_token (__init__ ∅) (PInt 7) "tok" [] =
    ([], Raise (ValueError "Session does not have property 'emit'")).
Proof.
  pose proof (notifications_require_emit ∅ msg (PInt 7) 0 "tok" [] eq_refl) as H.
  split; [exact (proj1 H) | exact (proj2 (proj2 (proj2 (proj2 (proj2 (proj2
    (proj2 (proj2 (proj2 H)))))))))].
Defined.
(** *** Further properties of the resolution *)

Import MoreSamples.


(** X12. Resolution over a stack in two parts: the inner part decides when
    it holds a marker, the outer part otherwise.  So a call through a frame
    without marker leaves the current emitter as it was, and a frame with a
    marker shadows every frame outside it. *)
Theorem get_emitter_app (inner outer : list frame) :
  get_emitter (inner ++ outer) =
    (if local_truthy (get_emitter inner) then get_emitter inner
     else get_emitter outer) /\
  (forall fr, carries fr = false -> get_emitter (fr :: outer) = get_emitter outer) /\
  (forall fr, carries fr = true -> get_emitter (fr :: outer) = marker fr).
Proof.
  split; [|split].
  - unfold get_emitter, candidates. rewrite map_app.
    induction inner as [|fr inner IH]; simpl; [reflexivity|].
    destruct (local_truthy (dict_get (f_locals fr) attr)) eqn:Hfr.
    + rewrite Hfr. reflexivity.
    + exact IH.
  - intros fr Hfr. unfold get_emitter, candidates. simpl.
    unfold carries, marker in Hfr. rewrite Hfr. reflexivity.
  - intros fr Hfr. unfold get_emitter, candidates. simpl.
    unfold carries, marker in Hfr. rewrite Hfr. reflexivity.
Qed.

Lemma get_emitter_app_witness :
  get_emitter (frame_plain :: nested_stack) = get_emitter nested_stack /\
  get_emitter (frame_outer :: nested_stack) = LEmitter outer_emitter.
Proof.
  pose proof (get_emitter_app [] nested_stack) as (_ & Hskip & Hshadow).
  split; [apply Hskip | apply Hshadow]; reflexivity.
Defined.

(** X13. [get_emitter] never makes up a value: its result is [None] or the
    value that some frame of the stack binds to [__chainlit_emitter__]. *)
Theorem get_emitter_from_stack (stack : list frame) :
  get_emitter stack = LVal PNone \/
  exists fr, In fr stack /\ f_locals fr !! attr = Some (get_emitter stack).
Proof.
  unfold get_emitter, candidates.
  induction stack as [|fr stack IH]; simpl; [left; reflexivity|].
  destruct (local_truthy (dict_get (f_locals fr) attr)) eqn:Hfr.
  - right. exists fr. split; [left; reflexivity|].
    unfold dict_get in *. destruct (f_locals fr !! attr); [reflexivity|].
    discriminate Hfr.
  - destruct IH as [IH | (fr' & Hin & Hfr')]; [left; exact IH|].
    right. exists fr'. split; [right; exact Hin | exact Hfr'].
Qed.

(** X14. [get_emit_fn] gives [None] when no frame carries a marker.  When
    the nearest marker is an emitter, it gives that emitter's [emit]
    property: the stored capability, or the missing-capability error (not
    [None]) when that emitter's session has no 'emit'. *)
Theorem get_emit_fn_resolution (stack : list frame) :
  ((forall x, In x stack -> carries x = false) ->
     get_emit_fn stack = Return (Plain PNone)) /\
  (forall nearer fr outer e,
      stack = nearer ++ fr :: outer ->
      (forall x, In x nearer -> carries x = false) ->
      marker fr = LEmitter e ->
      get_emit_fn stack = emit e) /\
  (forall nearer fr outer s,
      stack = nearer ++ fr :: outer ->
      (forall x, In x nearer -> carries x = false) ->
      marker fr = LEmitter (__init__ s) ->
      s !! "emit" = None ->
      get_emit_fn stack =
        Raise (ValueError "Session does not have property 'emit'")).
Proof.
  assert (Hnearest : forall nearer fr outer e,
      stack = nearer ++ fr :: outer ->
      (forall x, In x nearer -> carries x = false) ->
      marker fr = LEmitter e ->
      get_emit_fn stack = emit e).
  { intros nearer fr outer e -> Hnearer Hfr. unfold get_emit_fn.
    rewrite get_emitter_first_carrier; [|exact Hnearer|].
    - rewrite Hfr. reflexivity.
    - unfold carries. rewrite Hfr. reflexivity. }
  split; [|split].
  - intros Hnone. unfold get_emit_fn.
    rewrite (get_emitter_no_carrier stack Hnone). reflexivity.
  - exact Hnearest.
  - intros nearer fr outer s Hstack Hnearer Hfr Hemit.
    rewrite (Hnearest nearer fr outer _ Hstack Hnearer Hfr).
    unfold emit, _get_session_property. simpl. rewrite Hemit. reflexivity.
Qed.

Lemma get_emit_fn_resolution_witness :
  get_emit_fn [frame_plain; frame_none] = Return (Plain PNone) /\
  get_emit_fn [frame_number; frame_emit_only; frame_outer] = Return (Callable ok_fn) /\
  get_emit_fn [frame_plain; frame_empty_session; frame_outer] =
    Raise (ValueError "Session does not have property 'emit'").
Proof.
  split; [|split].
  - apply (proj1 (get_emit_fn_resolution [frame_plain; frame_none])).
    intros x [<- | [<- | []]]; reflexivity.
  - apply (proj1 (proj2 (get_emit_fn_resolution
                           [frame_number; frame_emit_only; frame_outer]))
             [frame_number] frame_emit_only [frame_outer]
             (__init__ session_emit_only)).
    + reflexivity.
    + intros x [<- | []]. reflexivity.
    + reflexivity.
  - apply (proj2 (proj2 (get_emit_fn_resolution
                           [frame_plain; frame_empty_session; frame_outer]))
             [frame_plain] frame_empty_session [frame_outer] ∅).
    + reflexivity.
    + intros x [<- | []]. reflexivity.
    + reflexivity.
    + reflexivity.
Defined.

End ResolutionProperties.

(** ** Properties of the agent adapter *)
Section AgentProperties.
Import Agent AgentSamples.

(** The outcome of [run_langchain_agent] once the agent has been invoked
    with [x], for each shape of [output_keys]. *)
Lemma run_after_invocation (a : agent) input_str use_async h x :
  (exists k ks, input_keys a = Some (k :: ks) /\ x = PDict [(k, PStr input_str)]) \/
  (input_keys a = None /\ x = PStr input_str) ->
  run_langchain_agent a input_str use_async h =
    ([Invoke (entry_name use_async) x [handler_of use_async]],
     match entry_of a use_async h x [handler_of use_async] with
     | Raise e => Raise e
     | Return raw =>
         match output_keys a with
         | Some (o :: _) => Return (raw, PStr o)
         | Some [] => Raise (IndexError "list index out of range")
         | None => Return (raw, PNone)
         end
     end).
Proof.
  intros [(k & ks & Hin & ->) | (Hin & ->)];
    unfold run_langchain_agent, bind, lift, ret, invoke, make_async, first,
      entry_of, entry_name, handler_of;
    rewrite Hin; destruct use_async; simpl; rewrite ?app_nil_r;
    match goal with |- context [match ?r with _ => _ end] => destruct r end;
    try reflexivity;
    destruct (output_keys a) as [[|o os]|]; reflexivity.
Qed.

(** C8 (as amended). With an [input_keys] attribute that has a first key
    the input string is passed as the single-entry mapping
    [{first key: input}]; with no [input_keys] attribute it is passed as it
    is; with an empty [input_keys] the call raises an index error and the
    agent is not invoked.  When the invocation returns, the raw result
    comes back paired with the first output key, or with [None] when the
    agent has no [output_keys] attribute; with an empty [output_keys] the
    call raises an index error. *)
Theorem adapter_wraps_input
    (a : agent) (input_str : string) (use_async : bool) (h : list invocation) :
  let run := run_langchain_agent a input_str use_async h in
  let invoked x :=
    events run = [Invoke (entry_name use_async) x [handler_of use_async]] in
  let answers x raw :=
    entry_of a use_async h x [handler_of use_async] = Return raw in
  (forall k ks, input_keys a = Some (k :: ks) ->
     invoked (PDict [(k, PStr input_str)])) /\
  (input_keys a = None -> invoked (PStr input_str)) /\
  (input_keys a = Some [] ->
     run = ([], Raise (IndexError "list index out of range"))) /\
  (forall x raw, invoked x -> answers x raw ->
     (forall o os, output_keys a = Some (o :: os) ->
        outcome run = Return (raw, PStr o)) /\
     (output_keys a = None -> outcome run = Return (raw, PNone)) /\
     (output_keys a = Some [] ->
        outcome run = Raise (IndexError "list index out of range"))).
Proof.
  intros run invoked answers. subst run invoked answers. cbv beta.
  split; [|split; [|split]].
  - intros k ks Hin. rewrite (run_after_invocation a input_str use_async h
      (PDict [(k, PStr input_str)])) by (left; eauto). reflexivity.
  - intros Hin. rewrite (run_after_invocation a input_str use_async h
      (PStr input_str)) by (right; eauto). reflexivity.
  - intros Hin. unfold run_langchain_agent, bind, lift, first.
    rewrite Hin. reflexivity.
  - intros x raw Hinvoked Hanswer.
    destruct (input_keys a) as [[|k ks]|] eqn:Hin.
    + exfalso. revert Hinvoked.
      unfold run_langchain_agent, bind, lift, first. rewrite Hin. discriminate.
    + rewrite (run_after_invocation a input_str use_async h
        (PDict [(k, PStr input_str)])) in * by (left; eauto).
      cbn [events outcome fst snd] in *. injection Hinvoked as <-.
      rewrite Hanswer.
      split; [intros o os ->|split; intros ->]; reflexivity.
    + rewrite (run_after_invocation a input_str use_async h
        (PStr input_str)) in * by (right; eauto).
      cbn [events outcome fst snd] in *. injection Hinvoked as <-.
      rewrite Hanswer.
      split; [intros o os ->|split; intros ->]; reflexivity.
Qed.

Lemma adapter_wraps_input_witness :
  run_langchain_agent qa_chain "hi" true [] =
    ([Invoke "acall" (PDict [("query", PStr "hi")]) [AsyncChainlitCallbackHandler]],
     Return (PDict [("result", PDict [("query", PStr "hi")])], PStr "result")) /\
  run_langchain_agent bare_agent "hi" false [] =
    ([Invoke "__call__" (PStr "hi") [ChainlitCallbackHandler]],
     Return (PDict [("result", PStr "hi")], PNone)).
Proof.
  pose proof (adapter_wraps_input qa_chain "hi" true []) as (Hq & _ & _ & Hqo).
  pose proof (adapter_wraps_input bare_agent "hi" false []) as (_ & Hb & _ & Hbo).
  specialize (Hq "query" [] eq_refl).
  specialize (Hb eq_refl).
  destruct (Hqo _ _ Hq eq_refl) as [Hqr _].
  destruct (Hbo _ _ Hb eq_refl) as (_ & Hbr & _).
  specialize (Hqr "result" ["source"] eq_refl). specialize (Hbr eq_refl).
  split; apply injective_projections; assumption.
Defined.

(** C8, counterexample: an agent that declares no input keys through an
    empty [input_keys]: nothing is passed to it, the call raises an index
    error; likewise an agent with an empty [output_keys] gets no absent
    key back but an index error, after it was invoked. *)
Lemma empty_keys_take_no_fallback :
  input_keys keyless_agent = Some [] /\
  run_langchain_agent keyless_agent "hi" false [] =
    ([], Raise (IndexError "list index out of range")) /\
  output_keys no_output_agent = Some [] /\
  run_langchain_agent no_output_agent "hi" true [] =
    ([Invoke "acall" (PDict [("query", PStr "hi")]) [AsyncChainlitCallbackHandler]],
     Raise (IndexError "list index out of range")).
Proof. repeat split. Qed.

(** C9. An agent whose [input_keys] is an empty sequence makes
    [run_langchain_agent] fail with an index error before the agent is
    invoked; an empty [output_keys] makes it fail with an index error once
    the invocation has returned.  The bare string is passed, and the
    absent output key returned, only when the attribute does not exist. *)
Theorem empty_keys_raise
    (a : agent) (input_str : string) (use_async : bool) (h : list invocation) :
  let run := run_langchain_agent a input_str use_async h in
  (input_keys a = Some [] ->
     run = ([], Raise (IndexError "list index out of range"))) /\
  (output_keys a = Some [] ->
     forall x raw,
       events run = [Invoke (entry_name use_async) x [handler_of use_async]] ->
       entry_of a use_async h x [handler_of use_async] = Return raw ->
       outcome run = Raise (IndexError "list index out of range")) /\
  (forall i, In i (events run) -> input i = PStr input_str ->
     input_keys a = None) /\
  (forall raw, outcome run = Return (raw, PNone) -> output_keys a = None).
Proof.
  intros run. subst run.
  destruct (input_keys a) as [[|k ks]|] eqn:Hin.
  - assert (Hrun : run_langchain_agent a input_str use_async h =
                     ([], Raise (IndexError "list index out of range"))).
    { unfold run_langchain_agent, bind, lift, first. rewrite Hin. reflexivity. }
    rewrite Hrun. cbn [events outcome fst snd].
    repeat split; intros; try discriminate; try contradiction.
  - rewrite (run_after_invocation a input_str use_async h
      (PDict [(k, PStr input_str)])) by (left; eauto).
    cbn [events outcome fst snd].
    split; [discriminate|]. split; [|split].
    + intros Hout x raw Hx Hanswer. injection Hx as <-.
      rewrite Hanswer, Hout. reflexivity.
    + intros i [<- | []] Hi. discriminate Hi.
    + intros raw.
      destruct (entry_of a use_async h _ _); [|discriminate].
      destruct (output_keys a) as [[|o os]|]; try discriminate. reflexivity.
  - rewrite (run_after_invocation a input_str use_async h
      (PStr input_str)) by (right; eauto).
    cbn [events outcome fst snd].
    split; [discriminate|]. split; [|split].
    + intros Hout x raw Hx Hanswer. injection Hx as <-.
      rewrite Hanswer, Hout. reflexivity.
    + reflexivity.
    + intros raw.
      destruct (entry_of a use_async h _ _); [|discriminate].
      destruct (output_keys a) as [[|o os]|]; try discriminate. reflexivity.
Qed.

Lemma empty_keys_raise_witness :
  run_langchain_agent keyless_agent "hi" true [] =
    ([], Raise (IndexError "list index out of range")) /\
  outcome (run_langchain_agent no_output_agent "hi" false []) =
    Raise (IndexError "list index out of range").
Proof.
  split.
  - apply (proj1 (empty_keys_raise keyless_agent "hi" true [])). reflexivity.
  - apply (proj1 (proj2 (empty_keys_raise no_output_agent "hi" false []))
             eq_refl (PDict [("query", PStr "hi")])
             (PDict [("result", PDict [("query", PStr "hi")])])); reflexivity.
Defined.
(** *** Further properties of the adapter *)

(** The whole run, by the shape of [input_keys]. *)
Lemma run_cases (a : agent) input_str use_async h :
  (input_keys a = Some [] /\
   run_langchain_agent a input_str use_async h =
     ([], Raise (IndexError "list index out of range"))) \/
  (exists x,
     ((exists k ks, input_keys a = Some (k :: ks) /\ x = PDict [(k, PStr input_str)]) \/
      (input_keys a = None /\ x = PStr input_str)) /\
     run_langchain_agent a input_str use_async h =
       ([Invoke (entry_name use_async) x [handler_of use_async]],
        match entry_of a use_async h x [handler_of use_async] with
        | Raise e => Raise e
        | Return raw =>
            match output_keys a with
            | Some (o :: _) => Return (raw, PStr o)
            | Some [] => Raise (IndexError "list index out of range")
            | None => Return (raw, PNone)
            end
        end)).
Proof.
  destruct (input_keys a) as [[|k ks]|] eqn:Hin.
  - left. split; [reflexivity|].
    unfold run_langchain_agent, bind, lift, first. rewrite Hin. reflexivity.
  - right. exists (PDict [(k, PStr input_str)]).
    split; [left; eauto|]. apply run_after_invocation. left; eauto.
  - right. exists (PStr input_str).
    split; [right; eauto|]. apply run_after_invocation. right; eauto.
Qed.

(** X15. The agent is invoked at most once per run, always through the
    entry point that [use_async] selects and with the handler of the same
    kind; it is not invoked at all exactly when [input_keys] is an empty
    sequence. *)
Theorem agent_invoked_at_most_once
    (a : agent) (input_str : string) (use_async : bool) (h : list invocation) :
  let run := run_langchain_agent a input_str use_async h in
  length (events run) <= 1 /\
  (events run = [] <-> input_keys a = Some []) /\
  (forall i, In i (events run) ->
     entry_point i = (if use_async then "acall" else "__call__") /\
     callbacks i = [if use_async then AsyncChainlitCallbackHandler
                    else ChainlitCallbackHandler]).
Proof.
  intros run. subst run.
  destruct (run_cases a input_str use_async h)
    as [[Hin ->] | (x & Hx & ->)]; cbn [events fst length].
  - split; [lia|]. split; [tauto|]. intros i [].
  - split; [lia|]. split.
    + split; [discriminate|]. intros Hin.
      destruct Hx as [(k & ks & Hk & _) | [Hk _]]; congruence.
    + intros i [<- | []]. destruct use_async; split; reflexivity.
Qed.

(** X16. An error raised by the agent leaves [run_langchain_agent]
    unchanged, and the output keys are not looked at: the same error comes
    out whether [output_keys] is absent, empty or not. *)
Theorem agent_error_propagates
    (a : agent) (input_str : string) (use_async : bool) (h : list invocation)
    (x : pyval) (e : exn) :
  let run := run_langchain_agent a input_str use_async h in
  events run = [Invoke (entry_name use_async) x [handler_of use_async]] ->
  entry_of a use_async h x [handler_of use_async] = Raise e ->
  outcome run = Raise e.
Proof.
  intros run Hev Hraise. subst run. revert Hev.
  destruct (run_cases a input_str use_async h)
    as [[Hin ->] | (x' & Hx & ->)]; cbn [events outcome fst snd].
  - discriminate.
  - intros [= <-]. rewrite Hraise. reflexivity.
Qed.

Lemma agent_error_propagates_witness :
  let failing : entry := fun _ _ _ => Raise (OtherError "RateLimitError" "429") in
  let a := {| input_keys := Some ["query"]; output_keys := Some [];
              acall := failing; __call__ := failing |} in
  outcome (run_langchain_agent a "hi" true []) =
    Raise (OtherError "RateLimitError" "429").
Proof.
  intros failing a.
  apply (agent_error_propagates a "hi" true [] (PDict [("query", PStr "hi")]));
    reflexivity.
Defined.

(** X17. Only the first input key and the first output key count, and the
    entry point that [use_async] does not select is never used: changing
    the other keys or the other entry point changes nothing. *)
Theorem only_first_keys_and_selected_entry
    (k o : string) (ks ks' os os' : list string) (f other other' : entry)
    (input_str : string) (h : list invocation) :
  run_langchain_agent
    {| input_keys := Some (k :: ks); output_keys := Some (o :: os);
       acall := f; __call__ := other |} input_str true h =
  run_langchain_agent
    {| input_keys := Some (k :: ks'); output_keys := Some (o :: os');
       acall := f; __call__ := other' |} input_str true h /\
  run_langchain_agent
    {| input_keys := Some (k :: ks); output_keys := Some (o :: os);
       acall := other; __call__ := f |} input_str false h =
  run_langchain_agent
    {| input_keys := Some (k :: ks'); output_keys := Some (o :: os');
       acall := other'; __call__ := f |} input_str false h.
Proof.
  split.
  - rewrite !(run_after_invocation _ input_str true h (PDict [(k, PStr input_str)]))
      by (left; simpl; eauto).
    reflexivity.
  - rewrite !(run_after_invocation _ input_str false h (PDict [(k, PStr input_str)]))
      by (left; simpl; eauto).
    reflexivity.
Qed.

End AgentProperties.

(** ** Properties of the Auth0 endpoint wrappers *)
Section Auth0Properties.
Import Auth0 MoreSamples.

Lemma append_cancel_l (p x y : string) : (p ++ x = p ++ y)%string -> x = y.
Proof.
  induction p as [|c p IH]; simpl; intros H; [exact H|].
  injection H as H. exact (IH H).
Qed.

Lemma append_assoc (a b c : string) : ((a ++ b) ++ c = a ++ b ++ c)%string.
Proof.
  induction a as [|x a IH]; [reflexivity|].
  change (String x ((a ++ b) ++ c) = String x (a ++ b ++ c))%string.
  rewrite IH. reflexivity.
Qed.

Lemma append_length (a b : string) :
  String.length (a ++ b) = String.length a + String.length b.
Proof.
  induction a as [|x a IH]; [reflexivity|].
  change (S (String.length (a ++ b)) = S (String.length a + String.length b)).
  rewrite IH. reflexivity.
Qed.

(** X18. The URL of one user's blocks is the collection URL followed by a
    slash and the id.  Different ids give different URLs, and no id, not
    even the empty string, gives the collection URL: only [None] does. *)
Theorem user_blocks_url (self : UserBlocks.UserBlocks) :
  (forall id,
     UserBlocks._url self (Some id) = (UserBlocks._url self None ++ "/" ++ id)%string) /\
  (forall id1 id2,
     UserBlocks._url self (Some id1) = UserBlocks._url self (Some id2) -> id1 = id2) /\
  (forall id, UserBlocks._url self (Some id) <> UserBlocks._url self None).
Proof.
  split; [|split].
  - intros id. reflexivity.
  - intros id1 id2 H. unfold UserBlocks._url in H.
    apply append_cancel_l in H. injection H as H. exact H.
  - intros id H. apply (f_equal String.length) in H.
    unfold UserBlocks._url in H. rewrite append_length in H. simpl in H. lia.
Qed.

(** X19. Different stats actions give different URLs, and for the same
    protocol and domain a stats URL is never the URL of the user blocks or
    of one user's blocks. *)
Theorem stats_url_apart (st : Stats.Stats) (ub : UserBlocks.UserBlocks) :
  (forall a1 a2, Stats._url st a1 = Stats._url st a2 -> a1 = a2) /\
  (Stats.protocol st = UserBlocks.protocol ub ->
   Stats.domain st = UserBlocks.domain ub ->
   forall action id, Stats._url st action <> UserBlocks._url ub id).
Proof.
  split.
  - intros a1 a2 H. unfold Stats._url in H.
    repeat (apply append_cancel_l in H). exact H.
  - intros Hp Hd action id H. unfold Stats._url, UserBlocks._url in H.
    rewrite Hp, Hd in H.
    destruct id as [i|]; rewrite ?append_assoc in H;
      repeat (apply append_cancel_l in H); discriminate H.
Qed.

Lemma stats_url_apart_witness :
  Stats._url tenant_stats "daily" <> UserBlocks._url tenant_blocks (Some "daily").
Proof.
  exact (proj2 (stats_url_apart tenant_stats tenant_blocks) eq_refl eq_refl
           "daily" (Some "daily")).
Defined.

Lemma url_of_id_not_collection (self : UserBlocks.UserBlocks) (id : string) :
  UserBlocks._url self (Some id) <> UserBlocks._url self None.
Proof.
  intros H. apply (f_equal String.length) in H.
  unfold UserBlocks._url in H. rewrite append_length in H. simpl in H. lia.
Qed.

(** X20. What the user-blocks methods ask of the REST client: [get] and
    [unblock] address the same URL, the first with GET and the second with
    DELETE, without params; the two by-identifier methods address the
    collection URL whatever the identifier, which travels in the params
    only; with [None] as id, [get] addresses the collection as well, while
    with a string id it never addresses the URL of a by-identifier request.
    Each method makes one request and hands back the client's answer, an
    error included. *)
Theorem user_blocks_requests
    (self : UserBlocks.UserBlocks) (id : option string) (identifier : pyval)
    (h : list request) :
  let c := UserBlocks.client self in
  let here := UserBlocks._url self id in
  let all := UserBlocks._url self None in
  let by_identifier := Some [("identifier", identifier)] in
  UserBlocks.get self id h = ([Request "GET" here None], get c h here None) /\
  UserBlocks.unblock self id h =
    ([Request "DELETE" here None], delete c h here None) /\
  UserBlocks.get_by_identifier self identifier h =
    ([Request "GET" all by_identifier], get c h all by_identifier) /\
  UserBlocks.unblock_by_identifier self identifier h =
    ([Request "DELETE" all by_identifier], delete c h all by_identifier) /\
  map url (events (UserBlocks.get self None h)) =
    map url (events (UserBlocks.get_by_identifier self identifier h)) /\
  (forall i r r',
     In r (events (UserBlocks.get self (Some i) h) ++
           events (UserBlocks.unblock self (Some i) h)) ->
     In r' (events (UserBlocks.get_by_identifier self identifier h) ++
            events (UserBlocks.unblock_by_identifier self identifier h)) ->
     url r <> url r').
Proof.
  repeat split.
  intros i r r' [<- | [<- | []]] [<- | [<- | []]];
    apply url_of_id_not_collection.
Qed.


End Auth0Properties.
